(** * BiliBiliIE: the bilibili extractor of youtube-dl

    A shallow embedding of [youtube_dl/extractor/bilibili.py] and the
    properties of its extraction pipeline: the signed API request, the
    per-part format lists, the merge of page metadata into the parts and
    the single-item / multi-part shape of the result.

    Conventions.
    - A Python text string is modelled by the sequence of its UTF-8 bytes
      (Rocq's [string]); [encode_utf8] is therefore the identity on the
      representation, and the byte-level character classes of the regular
      expressions accept the same texts as the code-point level ones,
      every delimiter used in the patterns being ASCII.
    - JSON values and the dictionaries the extractor builds share one
      type, [value]; a dictionary is a finite map from keys to values.
    - A Python float obtained as [float(v) / scale] is modelled by the
      exact rational it rounds.
    - The regular expressions are those of the source, written in the
      syntax tree of a backtracking matcher for the constructs they use;
      the classes \s and \d are the ASCII ones. *)

From Stdlib Require Import ZArith QArith String Ascii List Lia DecimalString.
From Stdlib Require Import DecimalNat.
From stdpp Require Import gmap strings list fin_maps.

#[local] Set Warnings "-register-all".
#[local] Open Scope Z_scope.

(** ** hashlib.md5 (RFC 1321) *)

Module Md5.

Definition add32 (x y : Z) : Z := (x + y) mod 2 ^ 32.

Definition not32 (x : Z) : Z := Z.lxor x 0xffffffff.

Definition rotl32 (x n : Z) : Z :=
  Z.lor (Z.shiftl x n mod 2 ^ 32) (Z.shiftr x (32 - n)).

(** T[i] = floor (2^32 * abs (sin (i + 1))) *)
Definition T : list Z :=
  [ 0xd76aa478; 0xe8c7b756; 0x242070db; 0xc1bdceee;
    0xf57c0faf; 0x4787c62a; 0xa8304613; 0xfd469501;
    0x698098d8; 0x8b44f7af; 0xffff5bb1; 0x895cd7be;
    0x6b901122; 0xfd987193; 0xa679438e; 0x49b40821;
    0xf61e2562; 0xc040b340; 0x265e5a51; 0xe9b6c7aa;
    0xd62f105d; 0x02441453; 0xd8a1e681; 0xe7d3fbc8;
    0x21e1cde6; 0xc33707d6; 0xf4d50d87; 0x455a14ed;
    0xa9e3e905; 0xfcefa3f8; 0x676f02d9; 0x8d2a4c8a;
    0xfffa3942; 0x8771f681; 0x6d9d6122; 0xfde5380c;
    0xa4beea44; 0x4bdecfa9; 0xf6bb4b60; 0xbebfbc70;
    0x289b7ec6; 0xeaa127fa; 0xd4ef3085; 0x04881d05;
    0xd9d4d039; 0xe6db99e5; 0x1fa27cf8; 0xc4ac5665;
    0xf4292244; 0x432aff97; 0xab9423a7; 0xfc93a039;
    0x655b59c3; 0x8f0ccc92; 0xffeff47d; 0x85845dd1;
    0x6fa87e4f; 0xfe2ce6e0; 0xa3014314; 0x4e0811a1;
    0xf7537e82; 0xbd3af235; 0x2ad7d2bb; 0xeb86d391 ].

(** Per-round left-rotation amounts. *)
Definition S : list Z :=
  [ 7; 12; 17; 22; 7; 12; 17; 22; 7; 12; 17; 22; 7; 12; 17; 22;
    5;  9; 14; 20; 5;  9; 14; 20; 5;  9; 14; 20; 5;  9; 14; 20;
    4; 11; 16; 23; 4; 11; 16; 23; 4; 11; 16; 23; 4; 11; 16; 23;
    6; 10; 15; 21; 6; 10; 15; 21; 6; 10; 15; 21; 6; 10; 15; 21 ].

Definition round_fn (i b c d : Z) : Z :=
  if i <? 16 then Z.lor (Z.land b c) (Z.land (not32 b) d)
  else if i <? 32 then Z.lor (Z.land d b) (Z.land (not32 d) c)
  else if i <? 48 then Z.lxor (Z.lxor b c) d
  else Z.lxor c (Z.lor b (not32 d)).

Definition msg_index (i : Z) : Z :=
  if i <? 16 then i
  else if i <? 32 then (5 * i + 1) mod 16
  else if i <? 48 then (3 * i + 5) mod 16
  else (7 * i) mod 16.

Definition state : Type := Z * Z * Z * Z.

Definition init : state := (0x67452301, 0xefcdab89, 0x98badcfe, 0x10325476).

Definition step (M : list Z) (st : state) (i : nat) : state :=
  let '(a, b, c, d) := st in
  let zi := Z.of_nat i in
  let f := add32 (add32 (add32 (round_fn zi b c d) a) (nth i T 0))
                 (nth (Z.to_nat (msg_index zi)) M 0) in
  (d, add32 b (rotl32 f (nth i S 0)), b, c).

Definition process_block (st : state) (M : list Z) : state :=
  let '(a0, b0, c0, d0) := st in
  let '(a, b, c, d) := fold_left (step M) (seq 0 64) st in
  (add32 a0 a, add32 b0 b, add32 c0 c, add32 d0 d).

(** Little-endian bytes of a word and back. *)
Fixpoint le_split (n : nat) (w : Z) : list Z :=
  match n with
  | O => []
  | Datatypes.S n' => w mod 256 :: le_split n' (Z.shiftr w 8)
  end.

Fixpoint le_combine (bs : list Z) : Z :=
  match bs with
  | [] => 0
  | b :: bs' => Z.lor b (Z.shiftl (le_combine bs') 8)
  end.

(** Padding: a 1 bit, zeros up to 56 mod 64, then the bit length on 64
    bits, little-endian. *)
Definition pad (msg : list Z) : list Z :=
  let len := Z.of_nat (length msg) in
  msg ++ [0x80] ++ repeat 0 (Z.to_nat ((55 - len) mod 64))
      ++ le_split 8 ((8 * len) mod 2 ^ 64).

Fixpoint chunks (fuel k : nat) (l : list Z) : list (list Z) :=
  match fuel with
  | O => []
  | Datatypes.S fuel' =>
      match l with
      | [] => []
      | _ => firstn k l :: chunks fuel' k (skipn k l)
      end
  end.

Definition words (block : list Z) : list Z :=
  map le_combine (chunks 16 4 block).

Definition blocks (msg : list Z) : list (list Z) :=
  let p := pad msg in map words (chunks (length p) 64 p).

Definition digest_state (msg : list Z) : state :=
  fold_left process_block (blocks msg) init.

(** [md5(msg).digest()]: the sixteen bytes A, B, C, D little-endian. *)
Definition digest (msg : list Z) : list Z :=
  let '(a, b, c, d) := digest_state msg in
  le_split 4 a ++ le_split 4 b ++ le_split 4 c ++ le_split 4 d.

Definition hex_digit (n : Z) : ascii :=
  nth (Z.to_nat (n mod 16))
      (list_ascii_of_string "0123456789abcdef") "0"%char.

Definition hex_byte (b : Z) : list ascii :=
  [hex_digit (Z.shiftr b 4); hex_digit b].

(** [md5(msg).hexdigest()] *)
Definition hexdigest (msg : list Z) : string :=
  string_of_list_ascii (concat (map hex_byte (digest msg))).

End Md5.

(** [s.encode('utf-8')] on the byte representation of a text. *)
Definition encode_utf8 (s : string) : list Z :=
  map (fun c => Z.of_N (N_of_ascii c)) (list_ascii_of_string s).

(** ** Values, exceptions and the extraction monad *)

(** JSON values and the Python objects built from them. *)
Inductive value :=
  | VNone
  | VBool (b : bool)
  | VInt (n : Z)
  | VFloat (q : Q)
  | VStr (s : string)
  | VList (l : list value)
  | VDict (d : gmap string value).

Inductive exn :=
  | RegexNotFoundError (msg : string)
  | KeyError (key : string)
  | IndexError
  | TypeError
  | AttributeError
  | AssertionError
  | HostError (msg : string).

(** A computation reports warnings (in order) and either raises or
    returns. *)
Definition M (A : Type) : Type := (list string * (exn + A))%type.

Definition raise {A} (e : exn) : M A := ([], inl e).

Definition report_warning (w : string) : M unit := ([w], inr tt).

Definition lift {A} (r : exn + A) : M A := ([], r).

#[global] Instance M_ret : MRet M := λ A x, ([], inr x).

#[global] Instance M_bind : MBind M := λ A B f m,
  match m with
  | (w, inl e) => (w, inl e)
  | (w, inr x) => let '(w', r) := f x in (w ++ w', r)
  end.

Definition outcome {A} (m : M A) : exn + A := snd m.

(** [for x in l: ... ] collecting one result per element, stopping at
    the first exception. *)
Fixpoint for_each {A B} (f : A → M B) (l : list A) : M (list B) :=
  match l with
  | [] => mret []
  | x :: l' => y ← f x; ys ← for_each f l'; mret (y :: ys)
  end.

(** [v[k]] with a string key. *)
Definition getitem (v : value) (k : string) : M value :=
  match v with
  | VDict d => match d !! k with
               | Some x => mret x
               | None => raise (KeyError k)
               end
  | _ => raise TypeError
  end.

(** [d.get(k)] on a dictionary. *)
Definition dict_get (d : gmap string value) (k : string) : value :=
  default VNone (d !! k).

(** [d1.update(d2)]: the keys of [d2] win. *)
Definition dict_update (d1 d2 : gmap string value) : gmap string value :=
  d2 ∪ d1.

Definition chars (s : string) : list value :=
  map (λ c, VStr (String c EmptyString)) (list_ascii_of_string s).

(** [iter(v)]: a list yields its items, a string its characters, a
    dictionary its keys (in the map's canonical order, the order of a
    Python dictionary being unspecified). *)
Definition iterate (v : value) : M (list value) :=
  match v with
  | VList l => mret l
  | VStr s => mret (chars s)
  | VDict d => mret (map (λ kv, VStr kv.1) (map_to_list d))
  | _ => raise TypeError
  end.

(** ** Strings *)

Fixpoint contains (needle s : string) : bool :=
  String.prefix needle s ||
  match s with
  | EmptyString => false
  | String _ s' => contains needle s'
  end.

Definition is_str (needle : string) (v : value) : bool :=
  match v with
  | VStr s => bool_decide (s = needle)
  | _ => false
  end.

(** [needle in v] for a string [needle]. *)
Definition py_in (needle : string) (v : value) : M bool :=
  match v with
  | VStr s => mret (contains needle s)
  | VList l => mret (existsb (is_str needle) l)
  | VDict d => mret (bool_decide (is_Some (d !! needle)))
  | _ => raise TypeError
  end.

(** ['%s' % n] and ['%d' % n] for a non-negative integer. *)
Definition str_of_nat (n : nat) : string :=
  NilEmpty.string_of_uint (Nat.to_uint n).

(** ** Regular expressions: the fragment of Python's [re] the patterns use *)

Module Re.

Inductive cclass :=
  | Lit (c : ascii)            (* a literal character *)
  | NotIn (cs : list ascii)    (* [^...] *)
  | Space                      (* \s : space, \t \n \v \f \r *)
  | Digit.                     (* \d : 0-9 *)

Definition cmatch (k : cclass) (a : ascii) : bool :=
  match k with
  | Lit c => bool_decide (a = c)
  | NotIn cs => negb (existsb (λ c, bool_decide (a = c)) cs)
  | Space => let n := nat_of_ascii a in
             ((9 <=? n) && (n <=? 13) || (n =? 32))%nat
  | Digit => let n := nat_of_ascii a in ((48 <=? n) && (n <=? 57))%nat
  end.

Inductive re :=
  | Eps
  | One (k : cclass)
  | Opt (k : cclass)           (* k? *)
  | Star (k : cclass)          (* k* *)
  | Plus (k : cclass)          (* k+ *)
  | Seq (a b : re)
  | Alt (a b : re)             (* (?:a|b) *)
  | Group (n : nat) (a : re).  (* the n-th capturing group *)

(** A match object: the text of each group that took part. *)
Abbreviation mobj := (gmap nat string).

(** The text consumed between the input [s] and its suffix [s']. *)
Definition consumed (s s' : string) : string :=
  substring 0 (String.length s - String.length s') s.

(** Greedy repetition: as many characters as possible, giving back one
    at a time while the continuation fails. *)
Fixpoint star (p : ascii → bool) (k : string → option mobj) (s : string)
  : option mobj :=
  match s with
  | String a s' =>
      if p a then
        match star p k s' with
        | Some m => Some m
        | None => k s
        end
      else k s
  | EmptyString => k s
  end.

(** Backtracking match of [r] at the head of [s], then the continuation
    [k] on the rest. *)
Fixpoint exec (r : re) (k : mobj → string → option mobj)
         (caps : mobj) (s : string) : option mobj :=
  match r with
  | Eps => k caps s
  | One c =>
      match s with
      | String a s' => if cmatch c a then k caps s' else None
      | EmptyString => None
      end
  | Opt c =>
      match s with
      | String a s' =>
          if cmatch c a then
            match k caps s' with
            | Some m => Some m
            | None => k caps s
            end
          else k caps s
      | EmptyString => k caps s
      end
  | Star c => star (cmatch c) (k caps) s
  | Plus c =>
      match s with
      | String a s' => if cmatch c a then star (cmatch c) (k caps) s' else None
      | EmptyString => None
      end
  | Seq a b => exec a (exec b k) caps s
  | Alt a b =>
      match exec a k caps s with
      | Some m => Some m
      | None => exec b k caps s
      end
  | Group n a => exec a (λ caps' s', k (<[n := consumed s s']> caps') s') caps s
  end.

(** [re.match(r, s)] *)
Definition rmatch (r : re) (s : string) : option mobj :=
  exec r (λ caps _, Some caps) ∅ s.

(** [re.search(r, s)]: the leftmost position where [r] matches. *)
Fixpoint search (r : re) (s : string) : option mobj :=
  match rmatch r s with
  | Some m => Some m
  | None =>
      match s with
      | String _ s' => search r s'
      | EmptyString => None
      end
  end.

(** [next(g for g in mobj.groups() if g is not None)] for a pattern of
    [n] groups, looked up from group [i]. *)
Fixpoint first_group (m : mobj) (i n : nat) : option string :=
  match n with
  | O => None
  | S n' =>
      match m !! i with
      | Some g => Some g
      | None => first_group m (S i) n'
      end
  end.

Fixpoint ngroups (r : re) : nat :=
  match r with
  | Seq a b | Alt a b => (ngroups a + ngroups b)%nat
  | Group _ a => S (ngroups a)
  | _ => O
  end.

(** A literal text. *)
Fixpoint lit (s : string) : re :=
  match s with
  | EmptyString => Eps
  | String c s' => Seq (One (Lit c)) (lit s')
  end.

Fixpoint seq (rs : list re) : re :=
  match rs with
  | [] => Eps
  | r :: rs' => Seq r (seq rs')
  end.

(** A continuation that keeps the groups bound so far. *)
Definition keeps (k : mobj → string → option mobj) : Prop :=
  ∀ caps s m n, k caps s = Some m → is_Some (caps !! n) → is_Some (m !! n).

(** [r] binds group [n] on every path through it. *)
Fixpoint binds (n : nat) (r : re) : Prop :=
  match r with
  | Group i a => i = n ∨ binds n a
  | Seq a b => binds n a ∨ binds n b
  | Alt a b => binds n a ∧ binds n b
  | _ => False
  end.

End Re.

(** ** The host framework *)

(** The double quote, a delimiter of several patterns. *)
Definition dq : ascii := "034"%char.

(** The collaborators [BiliBiliIE] inherits from [InfoExtractor] and
    whose code is not part of the extractor: page and JSON transport, the
    meta-tag search, HTML clean-up and the date parser behind
    [unified_timestamp]. *)
Class InfoExtractor := {
  (** [_download_webpage(url, video_id)] *)
  _download_webpage : string → string → exn + string;
  (** [_download_json(url, video_id)] *)
  _download_json : string → string → exn + value;
  (** [_html_search_meta(name, html)]: absent is tolerated *)
  _html_search_meta : string → string → option string;
  (** [clean_html(text).strip()] *)
  clean_html : string → string;
  (** the date-string parser, in epoch seconds *)
  parse_date : string → option Z;
}.

(** ** URL-encoded query strings *)

(** [s.split(sep)] *)
Fixpoint split (sep : ascii) (s : string) : list string :=
  match s with
  | EmptyString => [EmptyString]
  | String c s' =>
      if bool_decide (c = sep) then EmptyString :: split sep s'
      else match split sep s' with
           | w :: ws => String c w :: ws
           | [] => [String c EmptyString]
           end
  end.

(** [s.split(sep, 1)]: the text before the first [sep] and, when there is
    one, the text after it. *)
Fixpoint split1 (sep : ascii) (s : string) : string * option string :=
  match s with
  | EmptyString => (EmptyString, None)
  | String c s' =>
      if bool_decide (c = sep) then (EmptyString, Some s')
      else let '(a, b) := split1 sep s' in (String c a, b)
  end.

Definition hex_val (c : ascii) : option nat :=
  let n := nat_of_ascii c in
  if ((48 <=? n) && (n <=? 57))%nat then Some (n - 48)%nat
  else if ((97 <=? n) && (n <=? 102))%nat then Some (n - 87)%nat
  else if ((65 <=? n) && (n <=? 70))%nat then Some (n - 55)%nat
  else None.

(** Percent-decoding: [%XY] is the byte of hexadecimal code XY. *)
Fixpoint unquote (s : string) : string :=
  match s with
  | EmptyString => EmptyString
  | String c t =>
      if bool_decide (c = "%"%char) then
        match t with
        | String h (String l s') =>
            match hex_val h, hex_val l with
            | Some a, Some b => String (ascii_of_nat (16 * a + b)) (unquote s')
            | _, _ => String c (unquote t)
            end
        | _ => String c (unquote t)
        end
      else String c (unquote t)
  end.

(** [s.replace('+', ' ')] *)
Fixpoint plus_to_space (s : string) : string :=
  match s with
  | EmptyString => EmptyString
  | String c s' =>
      String (if bool_decide (c = "+"%char) then " "%char else c) (plus_to_space s')
  end.

(** The (name, value) pairs of a query string, in order; a field with no
    [=] or with a blank value is skipped. *)
Fixpoint parse_qsl_fields (fields : list string) : list (string * string) :=
  match fields with
  | [] => []
  | f :: fs =>
      match split1 "="%char f with
      | (name, Some val) =>
          if bool_decide (val = EmptyString) then parse_qsl_fields fs
          else (unquote (plus_to_space name), unquote (plus_to_space val))
                 :: parse_qsl_fields fs
      | (_, None) => parse_qsl_fields fs
      end
  end.

Definition parse_qsl (qs : string) : list (string * string) :=
  parse_qsl_fields (split "&"%char qs).

(** Modelled from the spec: [compat_parse_qs] of [youtube_dl/compat.py],
    which parses the matched fragment as URL-encoded query parameters;
    each key maps to the list of its values, in order of appearance. *)
Definition parse_qs (qs : string) : gmap string (list string) :=
  foldl (λ d kv, <[kv.1 := default [] (d !! kv.1) ++ [kv.2]]> d) ∅ (parse_qsl qs).

(** The values of key [k] among the pairs, in order. *)
Definition vals (k : string) (pairs : list (string * string)) : list string :=
  snd <$> List.filter (λ kv, bool_decide (kv.1 = k)) pairs.

Definition compat_parse_qs (qs : value) : M (gmap string (list string)) :=
  match qs with
  | VStr s => mret (parse_qs s)
  | _ => raise TypeError
  end.

(** [d[k]] on the result of [compat_parse_qs]. *)
Definition qs_getitem (d : gmap string (list string)) (k : string) : M (list string) :=
  match d !! k with
  | Some vs => mret vs
  | None => raise (KeyError k)
  end.

(** [l[i]] *)
Definition list_getitem (l : list string) (i : nat) : M string :=
  match l !! i with
  | Some x => mret x
  | None => raise IndexError
  end.

(** ** Helpers of the host framework *)

(** The first pattern of the list that matches somewhere in [s], and its
    first group. *)
Fixpoint first_match (patterns : list Re.re) (s : string) : option string :=
  match patterns with
  | [] => None
  | p :: ps =>
      match Re.search p s with
      | Some m => Re.first_group m 1 (Re.ngroups p)
      | None => first_match ps s
      end
  end.

(** Modelled from the spec: [InfoExtractor._search_regex] of
    [youtube_dl/extractor/common.py]. The patterns are tried in order,
    first match wins; when none matches, a fatal search fails with a
    not-found error and a non-fatal one emits a warning and yields
    nothing. *)
Definition _search_regex (patterns : list Re.re) (s name : string) (fatal : bool)
  : M value :=
  match first_match patterns s with
  | Some g => mret (VStr g)
  | None =>
      if fatal then raise (RegexNotFoundError ("Unable to extract " +:+ name))
      else _ ← report_warning ("unable to extract " +:+ name); mret VNone
  end.

(** Modelled from the spec: [InfoExtractor._html_search_regex], the same
    search followed by the host's HTML clean-up of the match. *)
Definition _html_search_regex `{InfoExtractor}
  (patterns : list Re.re) (s name : string) (fatal : bool) : M value :=
  res ← _search_regex patterns s name fatal;
  mret (match res with VStr g => VStr (clean_html g) | v => v end).

(** Modelled from the spec: [utils.int_or_none], a coercion tolerant of
    missing input. *)
Definition int_or_none (v : value) : value :=
  match v with
  | VInt n => VInt n
  | VFloat q => VInt (Z.quot (Qnum q) (Z.pos (Qden q)))
  | _ => VNone
  end.

(** Modelled from the spec: [utils.float_or_none], [float(v) / scale]
    tolerant of missing input. *)
Definition float_or_none (v : value) (scale : Z) : value :=
  match v with
  | VInt n => VFloat (inject_Z n / inject_Z scale)
  | VFloat q => VFloat (q / inject_Z scale)
  | _ => VNone
  end.

(** Modelled from the spec: [utils.unified_timestamp], the epoch seconds
    of a date string, tolerant of missing input. *)
Definition unified_timestamp `{InfoExtractor} (v : value) : value :=
  match v with
  | VStr s => match parse_date s with Some t => VInt t | None => VNone end
  | _ => VNone
  end.

Definition opt_str (o : option string) : value :=
  match o with Some s => VStr s | None => VNone end.

(** The [preference] of a format, when it carries one. *)
Definition preference (f : value) : option Z :=
  match f with
  | VDict d => match d !! "preference" with
               | Some (VInt p) => Some p
               | _ => None
               end
  | _ => None
  end.

(** [f] ranks strictly below [g]: an unset preference ranks above every
    explicit one. *)
Definition ranks_below (f g : value) : bool :=
  match preference f, preference g with
  | Some p, Some q => p <? q
  | Some _, None => true
  | None, _ => false
  end.

Fixpoint insert_format (f : value) (sorted : list value) : list value :=
  match sorted with
  | [] => [f]
  | g :: gs => if ranks_below f g then g :: insert_format f gs else f :: g :: gs
  end.

(** Modelled from the spec: [InfoExtractor._sort_formats], the host's
    format-list canonicalizer, as section 4.4 states its ranking rule: a
    stable sort, descending by preference, the unset preference above the
    explicit ones. *)
Definition _sort_formats (formats : list value) : list value :=
  foldr insert_format [] formats.

(** ** The extractor *)

Module BiliBiliIE.

Import Re.

(** https?://www\.bilibili\.(?:tv|com)/video/av(?P<id>\d+) *)
Definition _VALID_URL : re :=
  seq [ lit "http"; Opt (Lit "s"); lit "://www.bilibili.";
        Alt (lit "tv") (lit "com"); lit "/video/av"; Group 1 (Plus Digit) ].

Definition _APP_KEY : string := "6f90a59ac58a4123".
Definition _BILIBILI_KEY : string := "0bfd84cc3940035173f35e6777508326".

(** EmbedPlayer\([^)]+,\s*Q([^Q]+)Q\)  where Q is the double quote *)
Definition player_params_embed : re :=
  seq [ lit "EmbedPlayer("; Plus (NotIn [")"%char]); lit ","; Star Space;
        One (Lit dq); Group 1 (Plus (NotIn [dq])); One (Lit dq); lit ")" ].

(** <iframe[^>]+src=Qhttps://secure\.bilibili\.com/secure,([^Q]+)Q *)
Definition player_params_iframe : re :=
  seq [ lit "<iframe"; Plus (NotIn [">"%char]); lit "src="; One (Lit dq);
        lit "https://secure.bilibili.com/secure,";
        Group 1 (Plus (NotIn [dq])); One (Lit dq) ].

(** <h1[^>]+title=Q([^Q]+)Q> *)
Definition title_re : re :=
  seq [ lit "<h1"; Plus (NotIn [">"%char]); lit "title="; One (Lit dq);
        Group 1 (Plus (NotIn [dq])); One (Lit dq); lit ">" ].

(** <time[^>]+datetime=Q([^Q]+)Q *)
Definition upload_time_re : re :=
  seq [ lit "<time"; Plus (NotIn [">"%char]); lit "datetime="; One (Lit dq);
        Group 1 (Plus (NotIn [dq])); One (Lit dq) ].

(** <a[^>]+href=Qhttps?://space\.bilibili\.com/(?P<id>\d+)Q[^>]+title=Q(?P<name>[^Q]+)Q *)
Definition uploader_re : re :=
  seq [ lit "<a"; Plus (NotIn [">"%char]); lit "href="; One (Lit dq);
        lit "http"; Opt (Lit "s"); lit "://space.bilibili.com/";
        Group 1 (Plus Digit); One (Lit dq); Plus (NotIn [">"%char]);
        lit "title="; One (Lit dq); Group 2 (Plus (NotIn [dq])); One (Lit dq) ].

(** Modelled from the spec: [InfoExtractor._match_id], the id group of
    [_VALID_URL] matched at the head of the URL. *)
Definition _match_id (url : string) : M string :=
  match rmatch _VALID_URL url with
  | Some m => match m !! 1%nat with
              | Some id => mret id
              | None => raise IndexError
              end
  | None => raise AssertionError
  end.

(** Line 95:
    ['appkey=%s&cid=%s&otype=json&quality=2&type=mp4' % (_APP_KEY, cid)] *)
Definition payload_of (cid : string) : string :=
  "appkey=" +:+ _APP_KEY +:+ "&cid=" +:+ cid +:+ "&otype=json&quality=2&type=mp4".

(** Line 96:
    [hashlib.md5((payload + _BILIBILI_KEY).encode('utf-8')).hexdigest()] *)
Definition sign_of (payload : string) : string :=
  Md5.hexdigest (encode_utf8 (payload +:+ _BILIBILI_KEY)).

(** Line 99:
    ['http://interface.bilibili.com/playurl?%s&sign=%s' % (payload, sign)] *)
Definition playurl (payload sign : string) : string :=
  "http://interface.bilibili.com/playurl?" +:+ payload +:+ "&sign=" +:+ sign.

(** Lines 110-114: the format of one backup URL. *)
Definition backup_format (backup_url : value) : M value :=
  hd ← py_in "hd.mp4" backup_url;
  mret (VDict (<["url" := backup_url]>
               (<["preference" := VInt (if hd : bool then -2 else -3)]> ∅))).

(** Lines 105-116: the [formats] list of one durl record, the primary
    URL, then the backup URLs, then the host's sort. *)
Definition durl_formats (durl : value) : M (list value) :=
  url ← getitem durl "url";
  size ← getitem durl "size";
  let primary := VDict (<["url" := url]> (<["filesize" := int_or_none size]> ∅)) in
  backup_urls ← getitem durl "backup_url" ≫= iterate;
  backups ← for_each backup_format backup_urls;
  mret (_sort_formats (primary :: backups)).

(** [v.get(k)]: only a dictionary has the method. *)
Definition py_get (v : value) (k : string) : M value :=
  match v with
  | VDict d => mret (dict_get d k)
  | _ => raise AttributeError
  end.

(** Lines 104-122: the body of
    [for idx, durl in enumerate(video_info['durl'])]. *)
Definition durl_entry (video_id : string) (idx : nat) (durl : value) : M value :=
  formats ← durl_formats durl;
  length ← py_get durl "length";
  mret (VDict (<["id" := VStr (video_id +:+ "_part" +:+ str_of_nat idx)]>
               (<["duration" := float_or_none length 1000]>
                (<["formats" := VList formats]> ∅)))).

Fixpoint build_entries (video_id : string) (idx : nat) (durls : list value)
  : M (list value) :=
  match durls with
  | [] => mret []
  | durl :: rest =>
      entry ← durl_entry video_id idx durl;
      entries ← build_entries video_id (S idx) rest;
      mret (entry :: entries)
  end.

(** Line 149: [entry.update(info)] *)
Definition entry_update (info : gmap string value) (entry : value) : value :=
  match entry with
  | VDict d => VDict (dict_update d info)
  | v => v
  end.

(** Line 155: [entry['id'] = '%s_part%d' % (video_id, idx + 1)] *)
Definition renumber (video_id : string) (idx : nat) (entry : value) : value :=
  match entry with
  | VDict d => VDict (<["id" := VStr (video_id +:+ "_part" +:+ str_of_nat (idx + 1))]> d)
  | v => v
  end.

(** Lines 90-93: [cid = compat_parse_qs(self._search_regex([...],
    webpage, 'player parameters'))['cid'][0]] *)
Definition embedded_id (webpage : string) : M string :=
  params ← _search_regex [player_params_embed; player_params_iframe]
             webpage "player parameters" true;
  qs ← compat_parse_qs params;
  cids ← qs_getitem qs "cid";
  list_getitem cids 0.

(** The embedded id a matched fragment stands for: the first value of
    key cid among its URL-decoded parameters. *)
Definition cid_of_fragment (fragment : string) : M string :=
  match vals "cid" (parse_qsl fragment) with
  | cid :: _ => mret cid
  | [] => raise (KeyError "cid")
  end.

(** Lines 124-146: the metadata scraped from the page, [title],
    [description] and the [info] dictionary merged into every entry. *)
Definition page_info `{InfoExtractor} (video_id webpage : string) (video_info : value)
  : M (value * value * gmap string value) :=
  title ← _html_search_regex [title_re] webpage "title" true;
  let description := opt_str (_html_search_meta "description" webpage) in
  upload_time ← _html_search_regex [upload_time_re] webpage "upload time" false;
  let timestamp := unified_timestamp upload_time in
  let thumbnail := opt_str (_html_search_meta "thumbnailUrl" webpage) in
  timelength ← py_get video_info "timelength";
  let info : gmap string value :=
    <["id" := VStr video_id]>
    (<["title" := title]>
     (<["description" := description]>
      (<["timestamp" := timestamp]>
       (<["thumbnail" := thumbnail]>
        (<["duration" := float_or_none timelength 1000]> ∅))))) in
  let info :=
    match search uploader_re webpage with
    | Some m =>
        dict_update info
          (<["uploader" := opt_str (m !! 2%nat)]>
           (<["uploader_id" := opt_str (m !! 1%nat)]> ∅))
    | None => info
    end in
  mret (title, description, info).

(** Lines 148-163: the merge of [info] into the entries and the shape
    of the result, the only entry itself or a [multi_video] wrapper around
    the renumbered entries. *)
Definition assemble (video_id : string) (title description : value)
  (info : gmap string value) (entries : list value) : value :=
  let entries := entry_update info <$> entries in
  match entries with
  | [entry] => entry
  | _ =>
      VDict (<["_type" := VStr "multi_video"]>
             (<["id" := VStr video_id]>
              (<["title" := title]>
               (<["description" := description]>
                (<["entries" := VList (imap (renumber video_id) entries)]> ∅)))))
  end.

(** Lines 102-163: from the page and the API answer to the result,
    everything after the two downloads. *)
Definition extract_info `{InfoExtractor} (video_id webpage : string) (video_info : value)
  : M value :=
  durls ← getitem video_info "durl" ≫= iterate;
  entries ← build_entries video_id 0 durls;
  '(title, description, info) ← page_info video_id webpage video_info;
  mret (assemble video_id title description info entries).

(** Lines 85-163. *)
Definition _real_extract `{InfoExtractor} (url : string) : M value :=
  video_id ← _match_id url;
  webpage ← lift (_download_webpage url video_id);
  cid ← embedded_id webpage;
  let payload := payload_of cid in
  let sign := sign_of payload in
  video_info ← lift (_download_json (playurl payload sign) video_id);
  extract_info video_id webpage video_info.

(** The two kinds of format, as dictionaries. *)
Definition primary_of (url size : value) : gmap string value :=
  <["url" := url]> (<["filesize" := int_or_none size]> ∅).

Definition is_hd (backup_url : string) : bool := contains "hd.mp4" backup_url.

Definition backup_of (backup_url : string) : gmap string value :=
  <["url" := VStr backup_url]>
  (<["preference" := VInt (if contains "hd.mp4" backup_url then -2 else -3)]> ∅).

End BiliBiliIE.

(** A lowercase hexadecimal digit. *)
Definition lower_hex (c : ascii) : bool :=
  existsb (λ x, bool_decide (c = x)) (list_ascii_of_string "0123456789abcdef").

Definition is_vstr (v : value) : bool :=
  match v with VStr _ => true | _ => false end.

(** A durl record as the API sends it: [url], [size] and a list of
    strings as [backup_url]; [length] is optional. *)
Definition wf_durl (durl : value) : bool :=
  match durl with
  | VDict d =>
      match d !! "url", d !! "size", d !! "backup_url" with
      | Some _, Some _, Some (VList bs) => forallb is_vstr bs
      | _, _, _ => false
      end
  | _ => false
  end.

(** [v.get(k)] as an optional value: nothing when the key is absent. *)
Definition field (k : string) (v : value) : option value :=
  match v with
  | VDict d => d !! k
  | _ => None
  end.

(** The entries of a result: the result itself, or the entries of a
    [multi_video] wrapper. *)
Definition result_entries (r : value) : list value :=
  match r with
  | VDict d =>
      match d !! "_type", d !! "entries" with
      | Some _, Some (VList es) => es
      | Some _, _ => []
      | None, _ => [r]
      end
  | _ => []
  end.

(** ** Vocabulary of the further properties *)

(** Every character of [s] is in the class [p]. *)
Fixpoint all_of (p : ascii → bool) (s : string) : bool :=
  match s with
  | EmptyString => true
  | String a s' => p a && all_of p s'
  end.




Definition is_digit (a : ascii) : bool := Re.cmatch Re.Digit a.

(** [s] without its prefix [t], when it starts with [t]. *)
Fixpoint strip (t s : string) : option string :=
  match t with
  | EmptyString => Some s
  | String c t' =>
      match s with
      | String a s' => if bool_decide (a = c) then strip t' s' else None
      | EmptyString => None
      end
  end.

(** The first of the keys read with a subscript that a durl record
    lacks, in the order the loop body reads them. *)
Definition first_missing (d : gmap string value) : option string :=
  List.find (λ k, match d !! k with None => true | Some _ => false end)
    ["url"; "size"; "backup_url"].

(** Values a [for] loop cannot iterate over. *)
Definition not_iterable (v : value) : bool :=
  match v with
  | VNone | VBool _ | VInt _ | VFloat _ => true
  | _ => false
  end.



(** ** Sample pages and API responses *)

Module Demo.

Definition quoted (s : string) : string := String dq (s +:+ String dq EmptyString).

Definition url : string := "http://www.bilibili.tv/video/av1074402/".

Definition header : string :=
  "<h1 class=x title=" +:+ quoted "Hello" +:+ ">".

(** A page with the player call, a title and no upload time. *)
Definition page : string :=
  header +:+ "<script>EmbedPlayer(foo, " +:+ quoted "cid=12345&aid=7" +:+ ")</script>".

(** The same page with the upload time. *)
Definition page_timed : string :=
  page +:+ "<time itemprop=x datetime=" +:+ quoted "2014-04-20T16:51" +:+ ">".

(** A page with the secure iframe only. *)
Definition page_iframe : string :=
  header +:+ "<iframe class=player src="
  +:+ quoted "https://secure.bilibili.com/secure,cid=777&cid=778" +:+ ">".

(** A page whose player parameters carry no cid. *)
Definition page_nocid : string :=
  header +:+ "<script>EmbedPlayer(foo, " +:+ quoted "aid=7" +:+ ")</script>".

(** A page with no player parameters at all. *)
Definition page_bare : string := header.

Definition durl (url : string) (size : option Z) (length : option Z)
  (backups : list string) : value :=
  let d : gmap string value :=
    <["url" := VStr url]> (<["backup_url" := VList (VStr <$> backups)]> ∅) in
  let d := match size with Some n => <["size" := VInt n]> d | None => d end in
  let d := match length with Some n => <["length" := VInt n]> d | None => d end in
  VDict d.

Definition durl_a : value :=
  durl "http://x/a.mp4" (Some 100) (Some 5000) ["http://x/a_hd.mp4"; "http://x/a2.mp4"].

Definition durl_b : value :=
  durl "http://x/b.mp4" (Some 200) (Some 3000) [].

Definition durl_nosize : value :=
  durl "http://x/c.mp4" None (Some 4000) [].

Definition video_info (durls : list value) (timelength : option Z) : value :=
  let d : gmap string value := <["durl" := VList durls]> ∅ in
  VDict (match timelength with Some n => <["timelength" := VInt n]> d | None => d end).

(** A single-part answer: one record of 5 seconds, 5 seconds in total. *)
Definition single : value := video_info [durl_a] (Some 5000).

(** A two-part answer: 5 and 3 seconds, 8 seconds in total. *)
Definition two_parts : value := video_info [durl_a; durl_b] (Some 8000).

(** An answer whose only record lacks its size. *)
Definition sizeless : value := video_info [durl_nosize] (Some 4000).

(** The end-to-end example of the specification. *)
Definition page_spec : string :=
  header +:+ "EmbedPlayer(foo, " +:+ quoted "cid=12345" +:+ ")".

Definition answer_spec : value :=
  video_info [durl "http://x/a.mp4" (Some 100) (Some 5000) ["http://x/a_hd.mp4"]]
    (Some 5000).

(** A page with the player call and no title. *)
Definition page_untitled : string :=
  "<script>EmbedPlayer(foo, " +:+ quoted "cid=12345" +:+ ")</script>".

(** A page with the uploader's link. *)
Definition page_uploader : string :=
  page +:+ "<a class=u href=" +:+ quoted "http://space.bilibili.com/156160"
  +:+ " card=x title=" +:+ quoted "Bob" +:+ ">".

(** A record with neither url nor size. *)
Definition durl_bare : value :=
  VDict (<["backup_url" := VList []]> (<["length" := VInt 1000]> ∅)).

(** A record whose backup_url is null. *)
Definition durl_null_backup : value :=
  VDict (<["url" := VStr "http://x/d.mp4"]>
         (<["size" := VInt 1]> (<["backup_url" := VNone]> ∅))).

(** A host serving one page and one API answer, whatever the URL. *)
Definition host (page : string) (api : exn + value) : InfoExtractor := {|
  _download_webpage := λ _ _, inr page;
  _download_json := λ _ _, api;
  _html_search_meta := λ _ _, None;
  clean_html := λ s, s;
  parse_date := λ _, Some 1398012660;
|}.

End Demo.

(** * Properties *)

Import BiliBiliIE.

(** ** The monad *)

Lemma bind_ret {A B} (x : A) (f : A → M B) : (mret x ≫= f) = f x.
Proof. unfold mbind, M_bind, mret, M_ret. destruct (f x); reflexivity. Qed.

Lemma bind_raise {A B} (e : exn) (f : A → M B) : (raise e ≫= f) = raise e.
Proof. reflexivity. Qed.

Lemma bind_lift_ok {A B} (x : A) (f : A → M B) : (lift (inr x) ≫= f) = f x.
Proof. apply bind_ret. Qed.

Lemma bind_lift_err {A B} (e : exn) (f : A → M B) : (lift (inl e) ≫= f) = raise e.
Proof. reflexivity. Qed.

Lemma bind_assoc {A B C} (m : M A) (f : A → M B) (g : B → M C) :
  ((m ≫= f) ≫= g) = (m ≫= λ x, f x ≫= g).
Proof.
  unfold mbind, M_bind. destruct m as [w [e | x]]; [reflexivity |].
  destruct (f x) as [w1 [e1 | y]]; [reflexivity |].
  destruct (g y) as [w2 r]. by rewrite app_assoc.
Qed.

(** ** MD5 digests are sixteen bytes, printed as 32 lowercase digits *)

Example md5_empty : Md5.hexdigest (encode_utf8 EmptyString) = "d41d8cd98f00b204e9800998ecf8427e".
Proof. vm_compute. reflexivity. Qed.

Example md5_abc : Md5.hexdigest (encode_utf8 "abc") = "900150983cd24fb0d6963f7d28e17f72".
Proof. vm_compute. reflexivity. Qed.

Example md5_len55 :
  Md5.hexdigest (repeat 97 55) = "ef1772b6dff9a122358552954ad0df65".
Proof. vm_compute. reflexivity. Qed.

Example md5_len56 :
  Md5.hexdigest (repeat 97 56) = "3b0c8ac703f828b04c6c197006d17218".
Proof. vm_compute. reflexivity. Qed.

Example md5_len64 :
  Md5.hexdigest (repeat 97 64) = "014842d480b571495a4a0363793f7367".
Proof. vm_compute. reflexivity. Qed.

Lemma length_le_split n w : length (Md5.le_split n w) = n.
Proof. revert w; induction n as [| n IH]; intros w; simpl; [done | by rewrite IH]. Qed.

Lemma length_digest msg : length (Md5.digest msg) = 16%nat.
Proof.
  unfold Md5.digest. destruct (Md5.digest_state msg) as [[[a b] c] d].
  rewrite !length_app, !length_le_split. reflexivity.
Qed.

Lemma length_hex_bytes (bs : list Z) :
  length (concat (map Md5.hex_byte bs)) = (2 * length bs)%nat.
Proof. induction bs as [| b bs IH]; simpl; [done | rewrite IH; lia]. Qed.

Lemma length_string_of_list (l : list ascii) :
  String.length (string_of_list_ascii l) = length l.
Proof. induction l as [| c l IH]; simpl; [done | by rewrite IH]. Qed.

Lemma hexdigest_length msg : String.length (Md5.hexdigest msg) = 32%nat.
Proof.
  unfold Md5.hexdigest.
  by rewrite length_string_of_list, length_hex_bytes, length_digest.
Qed.

Lemma hex_digit_lower n : lower_hex (Md5.hex_digit n) = true.
Proof.
  unfold Md5.hex_digit.
  assert (H : (Z.to_nat (n mod 16) < 16)%nat) by (pose proof (Z.mod_pos_bound n 16); lia).
  revert H. generalize (Z.to_nat (n mod 16)). intros k Hk.
  do 16 (destruct k as [| k]; [reflexivity |]). lia.
Qed.

Lemma hex_bytes_lower (bs : list Z) :
  Forall (λ c, lower_hex c = true) (concat (map Md5.hex_byte bs)).
Proof.
  induction bs as [| b bs IH]; simpl; [constructor |].
  repeat constructor; auto using hex_digit_lower.
Qed.

Lemma list_of_string_of_list (l : list ascii) :
  list_ascii_of_string (string_of_list_ascii l) = l.
Proof. induction l as [| c l IH]; simpl; [done | by rewrite IH]. Qed.

Lemma hexdigest_lower msg :
  Forall (λ c, lower_hex c = true) (list_ascii_of_string (Md5.hexdigest msg)).
Proof. unfold Md5.hexdigest. rewrite list_of_string_of_list. apply hex_bytes_lower. Qed.

Lemma encode_utf8_app (s t : string) :
  encode_utf8 (s +:+ t) = encode_utf8 s ++ encode_utf8 t.
Proof.
  unfold encode_utf8. induction s as [| c s IH]; simpl; [done | by rewrite IH].
Qed.

(** ** The fetch phase *)

Section Fetch.
Context `{InfoExtractor}.

Lemma real_extract_fetched url vid webpage cid video_info :
  _match_id url = mret vid →
  _download_webpage url vid = inr webpage →
  embedded_id webpage = mret cid →
  _download_json (playurl (payload_of cid) (sign_of (payload_of cid))) vid = inr video_info →
  _real_extract url = extract_info vid webpage video_info.
Proof.
  intros Hid Hpage Hcid Hjson. unfold _real_extract.
  rewrite Hid, bind_ret, Hpage, bind_lift_ok, Hcid, bind_ret. cbv zeta.
  by rewrite Hjson, bind_lift_ok.
Qed.

Lemma real_extract_api_error url vid webpage cid e :
  _match_id url = mret vid →
  _download_webpage url vid = inr webpage →
  embedded_id webpage = mret cid →
  _download_json (playurl (payload_of cid) (sign_of (payload_of cid))) vid = inl e →
  _real_extract url = raise e.
Proof.
  intros Hid Hpage Hcid Hjson. unfold _real_extract.
  rewrite Hid, bind_ret, Hpage, bind_lift_ok, Hcid, bind_ret. cbv zeta.
  by rewrite Hjson.
Qed.

End Fetch.

(** C4. The request is signed as the API expects: the payload lists
    appkey, cid, otype, quality and type in this order; the sign parameter
    is the MD5 hexdigest (32 lowercase hexadecimal digits) of the UTF-8
    bytes of the payload followed by the secret, a function of the payload
    alone; and the URL the extractor asks the host to fetch is the
    endpoint with the payload and that sign. *)
Theorem C4_signed_request (cid : string) :
  payload_of cid
  = "appkey=6f90a59ac58a4123&cid=" +:+ cid +:+ "&otype=json&quality=2&type=mp4"
  ∧ sign_of (payload_of cid)
    = Md5.hexdigest (encode_utf8 (payload_of cid)
                     ++ encode_utf8 "0bfd84cc3940035173f35e6777508326")
  ∧ String.length (sign_of (payload_of cid)) = 32%nat
  ∧ Forall (λ c, lower_hex c = true) (list_ascii_of_string (sign_of (payload_of cid)))
  ∧ (∀ p1 p2, p1 = p2 → sign_of p1 = sign_of p2)
  ∧ playurl (payload_of cid) (sign_of (payload_of cid))
    = "http://interface.bilibili.com/playurl?" +:+ payload_of cid
      +:+ "&sign=" +:+ sign_of (payload_of cid)
  ∧ (∀ (ie : InfoExtractor) url vid webpage e,
       _match_id url = mret vid →
       _download_webpage url vid = inr webpage →
       embedded_id webpage = mret cid →
       _download_json (playurl (payload_of cid) (sign_of (payload_of cid))) vid = inl e →
       _real_extract url = raise e).
Proof.
  repeat split.
  - unfold sign_of, _BILIBILI_KEY. by rewrite encode_utf8_app.
  - apply hexdigest_length.
  - apply hexdigest_lower.
  - by intros p1 p2 ->.
  - intros ie url vid webpage e. apply real_extract_api_error.
Qed.

Example C4_sample :
  sign_of (payload_of "12345") = "31b30c61ba0d5bb1f2b9d4d585013080".
Proof. vm_compute. reflexivity. Qed.

Lemma C4_signed_request_witness :
  _real_extract (H := Demo.host Demo.page (inl (HostError "HTTP Error 403"))) Demo.url
  = raise (HostError "HTTP Error 403").
Proof.
  destruct (C4_signed_request "12345") as (_ & _ & _ & _ & _ & _ & Hreq).
  apply Hreq with (vid := "1074402") (webpage := Demo.page);
    [ vm_compute; reflexivity | reflexivity | vm_compute; reflexivity | reflexivity ].
Defined.

(** ** Substrings *)

Lemma prefix_spec (p s : string) :
  String.prefix p s = true ↔ ∃ post, s = p +:+ post.
Proof.
  revert s. induction p as [| c p IH]; intros s.
  - split; [intros _; by exists s | by destruct s].
  - destruct s as [| c' s]; [split; [done | by intros [? ?]] |].
    change (String.prefix (String c p) (String c' s))
      with (if Ascii.ascii_dec c c' then String.prefix p s else false).
    destruct (Ascii.ascii_dec c c') as [-> | Hne].
    + rewrite IH. split; intros [post Hp]; exists post.
      * change (String c' s = String c' (p +:+ post)). by rewrite Hp.
      * change (String c' s = String c' (p +:+ post)) in Hp. congruence.
    + split; [done | intros [post Hp]].
      change (String c' s = String c (p +:+ post)) in Hp. congruence.
Qed.

Lemma contains_cons needle c s :
  contains needle (String c s) = String.prefix needle (String c s) || contains needle s.
Proof. reflexivity. Qed.

Lemma contains_spec (needle s : string) :
  contains needle s = true ↔ ∃ pre post, s = pre +:+ needle +:+ post.
Proof.
  induction s as [| c s IH].
  - change (contains needle EmptyString) with (String.prefix needle EmptyString || false).
    rewrite orb_false_r, prefix_spec. split.
    + intros [post Hp]. by exists EmptyString, post.
    + intros [[| c pre] [post Hp]]; [by exists post | done].
  - rewrite contains_cons, orb_true_iff, prefix_spec, IH. split.
    + intros [[post Hp] | (pre & post & Hp)].
      * by exists EmptyString, post.
      * exists (String c pre), post.
        change (String c s = String c (pre +:+ needle +:+ post)). by rewrite Hp.
    + intros ([| c' pre] & post & Hp).
      * left. by exists post.
      * right. exists pre, post.
        change (String c s = String c' (pre +:+ needle +:+ post)) in Hp. congruence.
Qed.

(** ** The format list of a durl record *)

Lemma primary_of_lookup url size :
  primary_of url size !! "url" = Some url
  ∧ primary_of url size !! "filesize" = Some (int_or_none size)
  ∧ primary_of url size !! "preference" = None.
Proof. repeat split. Qed.

Lemma backup_of_lookup b :
  backup_of b !! "url" = Some (VStr b)
  ∧ backup_of b !! "filesize" = None
  ∧ backup_of b !! "preference"
    = Some (VInt (if contains "hd.mp4" b then -2 else -3)).
Proof. repeat split. Qed.

Lemma for_each_backup_format (bs : list string) :
  for_each backup_format (VStr <$> bs) = mret (VDict ∘ backup_of <$> bs).
Proof.
  induction bs as [| b bs IH]; [reflexivity |].
  rewrite !fmap_cons. cbn [for_each]. rewrite IH.
  unfold backup_format. cbn [py_in]. by rewrite !bind_ret.
Qed.

Lemma durl_formats_eq (d : gmap string value) url size (bs : list string) :
  d !! "url" = Some url →
  d !! "size" = Some size →
  d !! "backup_url" = Some (VList (VStr <$> bs)) →
  durl_formats (VDict d)
  = mret (_sort_formats (VDict (primary_of url size) :: (VDict ∘ backup_of <$> bs))).
Proof.
  intros Hurl Hsize Hbs. unfold durl_formats, getitem.
  rewrite Hurl, bind_ret, Hsize, bind_ret, Hbs, bind_ret. cbn [iterate].
  by rewrite bind_ret, for_each_backup_format, bind_ret.
Qed.

Lemma durl_formats_no_size (d : gmap string value) url :
  d !! "url" = Some url →
  d !! "size" = None →
  durl_formats (VDict d) = raise (KeyError "size").
Proof.
  intros Hurl Hsize. unfold durl_formats, getitem.
  by rewrite Hurl, bind_ret, Hsize.
Qed.

(** ** The sort *)

Lemma insert_format_perm f l : insert_format f l ≡ₚ f :: l.
Proof.
  induction l as [| g l IH]; simpl; [done |].
  destruct (ranks_below f g); [| done].
  rewrite IH. apply Permutation_swap.
Qed.

Lemma sort_formats_perm l : _sort_formats l ≡ₚ l.
Proof.
  induction l as [| f l IH]; simpl; [done |].
  by rewrite insert_format_perm, IH.
Qed.

Lemma preference_primary url size : preference (VDict (primary_of url size)) = None.
Proof. reflexivity. Qed.

Lemma preference_backup b :
  preference (VDict (backup_of b)) = Some (if contains "hd.mp4" b then -2 else -3).
Proof. reflexivity. Qed.

Lemma insert_primary url size l :
  insert_format (VDict (primary_of url size)) l = VDict (primary_of url size) :: l.
Proof. destruct l as [| g l]; reflexivity. Qed.

Lemma ranks_below_backup b b' :
  ranks_below (VDict (backup_of b)) (VDict (backup_of b'))
  = negb (is_hd b) && is_hd b'.
Proof.
  unfold ranks_below. rewrite !preference_backup. unfold is_hd.
  by destruct (contains "hd.mp4" b), (contains "hd.mp4" b').
Qed.

Lemma insert_backup_hd b (l : list string) :
  is_hd b = true →
  insert_format (VDict (backup_of b)) (VDict ∘ backup_of <$> l)
  = VDict (backup_of b) :: (VDict ∘ backup_of <$> l).
Proof.
  intros Hb. destruct l as [| b' l]; [reflexivity |].
  rewrite fmap_cons. cbn [insert_format compose].
  by rewrite ranks_below_backup, Hb.
Qed.

Lemma insert_backup_plain b (hs ps : list string) :
  is_hd b = false →
  Forall (λ h, is_hd h = true) hs →
  Forall (λ p, is_hd p = false) ps →
  insert_format (VDict (backup_of b))
    ((VDict ∘ backup_of <$> hs) ++ (VDict ∘ backup_of <$> ps))
  = (VDict ∘ backup_of <$> hs) ++ VDict (backup_of b) :: (VDict ∘ backup_of <$> ps).
Proof.
  intros Hb Hhs Hps. induction Hhs as [| h hs Hh Hhs IH].
  - destruct Hps as [| p ps Hp Hps]; [reflexivity |].
    rewrite fmap_cons. cbn [app fmap list_fmap insert_format compose].
    by rewrite ranks_below_backup, Hb, Hp.
  - rewrite fmap_cons. cbn [app insert_format compose].
    rewrite ranks_below_backup, Hb, Hh. cbn [negb andb]. by rewrite <- IH.
Qed.

Lemma Forall_filter_true {A} (p : A → bool) (l : list A) :
  Forall (λ x, p x = true) (List.filter p l).
Proof.
  induction l as [| x l IH]; simpl; [constructor |].
  destruct (p x) eqn:Hx; [by constructor | done].
Qed.

(** Backups sort into the hd tier followed by the plain tier, each in
    its original order. *)
Lemma sort_backups (bs : list string) :
  _sort_formats (VDict ∘ backup_of <$> bs)
  = (VDict ∘ backup_of <$> List.filter is_hd bs)
    ++ (VDict ∘ backup_of <$> List.filter (negb ∘ is_hd) bs).
Proof.
  induction bs as [| b bs IH]; [reflexivity |].
  rewrite fmap_cons. cbn [_sort_formats foldr].
  change (foldr insert_format [] (VDict ∘ backup_of <$> bs))
    with (_sort_formats (VDict ∘ backup_of <$> bs)).
  rewrite IH. cbn [List.filter compose]. destruct (is_hd b) eqn:Hb; cbn [negb].
  - rewrite <- fmap_app, insert_backup_hd by done.
    by rewrite fmap_app, fmap_cons.
  - rewrite insert_backup_plain; [by rewrite fmap_cons | done | |].
    + apply Forall_filter_true.
    + eapply Forall_impl; [apply (Forall_filter_true (negb ∘ is_hd)) |].
      intros x. unfold compose. by destruct (is_hd x).
Qed.

Lemma sort_durl_formats url size (bs : list string) :
  _sort_formats (VDict (primary_of url size) :: (VDict ∘ backup_of <$> bs))
  = VDict (primary_of url size)
    :: (VDict ∘ backup_of <$> List.filter is_hd bs)
    ++ (VDict ∘ backup_of <$> List.filter (negb ∘ is_hd) bs).
Proof.
  cbn [_sort_formats foldr].
  change (foldr insert_format [] (VDict ∘ backup_of <$> bs))
    with (_sort_formats (VDict ∘ backup_of <$> bs)).
  by rewrite sort_backups, insert_primary.
Qed.

(** C5. A durl record with n backup URLs yields 1+n formats: the
    primary URL with the record's filesize and no preference, and one
    format per backup URL with no filesize and preference -2 when the URL
    contains hd.mp4, -3 otherwise; with no backup URL the list has exactly
    one format. *)
Theorem C5_format_list (d : gmap string value) url size (bs : list string) :
  d !! "url" = Some url →
  d !! "size" = Some size →
  d !! "backup_url" = Some (VList (VStr <$> bs)) →
  ∃ formats,
    durl_formats (VDict d) = mret formats
    ∧ length formats = (1 + length bs)%nat
    ∧ formats ≡ₚ VDict (primary_of url size) :: (VDict ∘ backup_of <$> bs)
    ∧ (primary_of url size !! "url" = Some url
       ∧ primary_of url size !! "filesize" = Some (int_or_none size)
       ∧ (∀ n, size = VInt n → primary_of url size !! "filesize" = Some (VInt n))
       ∧ primary_of url size !! "preference" = None)
    ∧ (∀ b, backup_of b !! "url" = Some (VStr b)
            ∧ backup_of b !! "filesize" = None
            ∧ ((∃ pre post, b = pre +:+ "hd.mp4" +:+ post)
               → backup_of b !! "preference" = Some (VInt (-2)))
            ∧ ((¬ ∃ pre post, b = pre +:+ "hd.mp4" +:+ post)
               → backup_of b !! "preference" = Some (VInt (-3))))
    ∧ (bs = [] → formats = [VDict (primary_of url size)]).
Proof.
  intros Hurl Hsize Hbs. eexists. split; [by apply durl_formats_eq |].
  split; [| split; [apply sort_formats_perm |]].
  { rewrite sort_formats_perm. cbn [length]. by rewrite length_fmap. }
  split; [| split].
  - repeat split. by intros n ->.
  - intros b. destruct (backup_of_lookup b) as (Hu & Hf & Hp).
    split; [done |]. split; [done |]. split; intros Hc; rewrite Hp.
    + apply contains_spec in Hc. by rewrite Hc.
    + destruct (contains "hd.mp4" b) eqn:Hb; [| done].
      apply contains_spec in Hb. done.
  - by intros ->.
Qed.

Lemma C5_format_list_witness :
  ∃ formats,
    durl_formats Demo.durl_a = mret formats ∧ length formats = 3%nat.
Proof.
  destruct (C5_format_list
              (<["url" := VStr "http://x/a.mp4"]>
               (<["size" := VInt 100]>
                (<["length" := VInt 5000]>
                 (<["backup_url" := VList (VStr <$> ["http://x/a_hd.mp4"; "http://x/a2.mp4"])]> ∅))))
              (VStr "http://x/a.mp4") (VInt 100)
              ["http://x/a_hd.mp4"; "http://x/a2.mp4"])
    as (formats & Hf & Hlen & _); [reflexivity | reflexivity | reflexivity |].
  exists formats. split; [| exact Hlen].
  rewrite <- Hf. vm_compute. reflexivity.
Defined.

(** ** Matching: a successful match binds the groups it went through *)

Module ReFacts.
Import Re.

Lemma star_called p k s m :
  star p k s = Some m → ∃ s', k s' = Some m.
Proof.
  induction s as [| a s IH]; simpl; [eauto |].
  destruct (p a); [| eauto].
  destruct (star p k s) as [m' |] eqn:Hs; [| eauto].
  intros [= ->]. by apply IH.
Qed.

(** A successful match ran its continuation. *)
Lemma exec_called r : ∀ k caps s m,
  exec r k caps s = Some m →
  ∃ caps' s', k caps' s' = Some m ∧ ∀ n, is_Some (caps !! n) → is_Some (caps' !! n).
Proof.
  induction r as [| c | c | c | c | a IHa b IHb | a IHa b IHb | i a IHa];
    intros k caps s m; cbn [exec].
  - eauto.
  - destruct s as [| x s]; [done |]. destruct (cmatch c x); [eauto | done].
  - destruct s as [| x s]; [eauto |]. destruct (cmatch c x); [| eauto].
    destruct (k caps s) eqn:Hk; [intros [= ->] |]; eauto.
  - intros Hs. apply star_called in Hs as [s' Hs]. eauto.
  - destruct s as [| x s]; [done |]. destruct (cmatch c x); [| done].
    intros Hs. apply star_called in Hs as [s' Hs]. eauto.
  - intros Hm. apply IHa in Hm as (caps1 & s1 & Hm & H1).
    apply IHb in Hm as (caps2 & s2 & Hm & H2). eauto 10.
  - destruct (exec a k caps s) eqn:Ha; [intros [= ->]; eauto | eauto].
  - intros Hm. apply IHa in Hm as (caps1 & s1 & Hm & H1).
    exists (<[i := consumed s s1]> caps1), s1. split; [done |].
    intros n Hn. destruct (decide (i = n)) as [-> | Hne].
    + rewrite lookup_insert_eq. eauto.
    + rewrite lookup_insert_ne by done. auto.
Qed.

Lemma exec_binds r : ∀ n k caps s m,
  binds n r → keeps k → exec r k caps s = Some m → is_Some (m !! n).
Proof.
  induction r as [| c | c | c | c | a IHa b IHb | a IHa b IHb | i a IHa];
    intros n k caps s m Hb Hk; cbn [binds] in Hb; try done; cbn [exec].
  - destruct Hb as [Hb | Hb].
    + intros Hm. eapply IHa; [done | | exact Hm].
      intros caps1 s1 m1 n1 Hm1 Hn1.
      apply exec_called in Hm1 as (caps2 & s2 & Hm1 & H2). eauto.
    + intros Hm. apply exec_called in Hm as (caps1 & s1 & Hm & H1). eauto.
  - destruct Hb as [Ha Hb].
    destruct (exec a k caps s) eqn:Hm; [intros [= ->]; eauto | eauto].
  - intros Hm. destruct Hb as [-> | Hb].
    + apply exec_called in Hm as (caps1 & s1 & Hm & H1).
      eapply Hk; [exact Hm |]. rewrite lookup_insert_eq. eauto.
    + eapply IHa; [done | | exact Hm].
      intros caps1 s1 m1 n1 Hm1 Hn1. eapply Hk; [exact Hm1 |].
      destruct (decide (i = n1)) as [-> | Hne].
      * rewrite lookup_insert_eq. eauto.
      * rewrite lookup_insert_ne by done. auto.
Qed.

Lemma search_binds r n s m :
  binds n r → search r s = Some m → is_Some (m !! n).
Proof.
  intros Hb. induction s as [| c s IH]; cbn [search]; unfold rmatch.
  - destruct (exec r _ ∅ EmptyString) eqn:Hm; [intros [= ->] | done].
    eapply exec_binds; [done | | exact Hm]. by intros ? ? ? ? [= ->].
  - destruct (exec r _ ∅ (String c s)) eqn:Hm; [intros [= ->] | done].
    eapply exec_binds; [done | | exact Hm]. by intros ? ? ? ? [= ->].
Qed.

(** No match anywhere: the pattern matches at the head of no suffix. *)
Lemma search_none r s :
  search r s = None ↔ ∀ pre post, s = pre +:+ post → rmatch r post = None.
Proof.
  induction s as [| c s IH]; cbn [search].
  - split.
    + destruct (rmatch r EmptyString) eqn:Hm; [done |].
      intros _ [| c pre] post Hs; [| done].
      change (EmptyString = post) in Hs. by subst post.
    + intros Hall. by rewrite (Hall EmptyString EmptyString eq_refl).
  - split.
    + destruct (rmatch r (String c s)) eqn:Hm; [done |].
      intros Hs [| c' pre] post Hp.
      { change (String c s = post) in Hp. by subst post. }
      change (String c s = String c' (pre +:+ post)) in Hp.
      injection Hp as -> ->. by apply IH with pre.
    + intros Hall. rewrite (Hall EmptyString (String c s) eq_refl).
      apply IH. intros pre post ->. by apply (Hall (String c pre) post).
Qed.

End ReFacts.

(** The matcher is greedy and backtracks: the first class runs to the
    last comma before the quoted parameters. *)
Example embed_backtracks :
  first_match [player_params_embed]
    ("x EmbedPlayer(a,b, " +:+ Demo.quoted "cid=1&aid=2" +:+ ") y")
  = Some "cid=1&aid=2".
Proof. vm_compute. reflexivity. Qed.

Example embed_needs_parameters :
  first_match [player_params_embed] ("EmbedPlayer(a, " +:+ Demo.quoted EmptyString +:+ ")")
  = None.
Proof. vm_compute. reflexivity. Qed.

Example match_id_sample :
  _match_id "https://www.bilibili.com/video/av4808130/" = mret "4808130"
  ∧ _match_id "https://www.bilibili.org/video/av4808130/" = raise AssertionError.
Proof. split; vm_compute; reflexivity. Qed.

Example parse_qs_sample :
  vals "cid" (parse_qsl "aid=7&cid=%31%32&x=&cid=13") = ["12"; "13"].
Proof. vm_compute. reflexivity. Qed.

(** Each of the page patterns has one group and binds it. *)
Lemma first_match_one (r : Re.re) (s : string) :
  Re.ngroups r = 1%nat → Re.binds 1 r →
  first_match [r] s = None ↔ Re.search r s = None.
Proof.
  intros Hn Hb. cbn [first_match]. rewrite Hn.
  destruct (Re.search r s) as [m |] eqn:Hs; [| done].
  destruct (ReFacts.search_binds r 1 s m Hb Hs) as [g Hg].
  cbn [Re.first_group]. by rewrite Hg.
Qed.

(** ** Query strings *)

Lemma parse_qs_fold (l : list (string * string)) : ∀ (d : gmap string (list string)) k,
  foldl (λ d kv, <[kv.1 := default [] (d !! kv.1) ++ [kv.2]]> d) d l !! k
  = match vals k l with
    | [] => d !! k
    | vs => Some (default [] (d !! k) ++ vs)
    end.
Proof.
  induction l as [| [k' v] l IH]; intros d k; [reflexivity |].
  cbn [foldl]. rewrite IH. unfold vals. cbn [List.filter fst snd].
  destruct (decide (k' = k)) as [-> | Hne].
  - rewrite bool_decide_eq_true_2 by done. rewrite fmap_cons. cbn [snd].
    rewrite lookup_insert_eq. cbn [default].
    destruct (snd <$> List.filter _ l); [done |].
    unfold id. by rewrite <- app_assoc.
  - rewrite bool_decide_eq_false_2 by done. by rewrite lookup_insert_ne.
Qed.

Lemma parse_qs_lookup qs k :
  parse_qs qs !! k
  = match vals k (parse_qsl qs) with [] => None | vs => Some vs end.
Proof. unfold parse_qs. rewrite parse_qs_fold, lookup_empty. by destruct (vals _ _). Qed.

(** ** The embedded id *)

Lemma embedded_id_found webpage frag :
  first_match [player_params_embed; player_params_iframe] webpage = Some frag →
  embedded_id webpage = cid_of_fragment frag.
Proof.
  intros Hm. unfold embedded_id, _search_regex. rewrite Hm, bind_ret.
  cbn [compat_parse_qs]. rewrite bind_ret. unfold qs_getitem, cid_of_fragment.
  rewrite parse_qs_lookup. destruct (vals _ _) as [| c cs]; [done |].
  by rewrite bind_ret.
Qed.

Lemma embedded_id_not_found webpage :
  first_match [player_params_embed; player_params_iframe] webpage = None →
  embedded_id webpage
  = raise (RegexNotFoundError "Unable to extract player parameters").
Proof. intros Hm. unfold embedded_id, _search_regex. by rewrite Hm. Qed.

Lemma binds_embed : Re.binds 1 player_params_embed.
Proof. cbn. tauto. Qed.

Lemma binds_iframe : Re.binds 1 player_params_iframe.
Proof. cbn. tauto. Qed.

Lemma first_match_embed webpage m :
  Re.search player_params_embed webpage = Some m →
  ∃ frag, m !! 1%nat = Some frag
    ∧ first_match [player_params_embed; player_params_iframe] webpage = Some frag.
Proof.
  intros Hs. destruct (ReFacts.search_binds _ _ _ _ binds_embed Hs) as [frag Hf].
  exists frag. split; [done |]. cbn [first_match]. rewrite Hs.
  change (Re.ngroups player_params_embed) with 1%nat. cbn [Re.first_group].
  by rewrite Hf.
Qed.

Lemma first_match_iframe webpage m :
  Re.search player_params_embed webpage = None →
  Re.search player_params_iframe webpage = Some m →
  ∃ frag, m !! 1%nat = Some frag
    ∧ first_match [player_params_embed; player_params_iframe] webpage = Some frag.
Proof.
  intros Ha Hs. destruct (ReFacts.search_binds _ _ _ _ binds_iframe Hs) as [frag Hf].
  exists frag. split; [done |]. cbn [first_match]. rewrite Ha, Hs.
  change (Re.ngroups player_params_iframe) with 1%nat. cbn [Re.first_group].
  by rewrite Hf.
Qed.

Lemma first_match_neither webpage :
  Re.search player_params_embed webpage = None →
  Re.search player_params_iframe webpage = None →
  first_match [player_params_embed; player_params_iframe] webpage = None.
Proof. intros Ha Hb. cbn [first_match]. by rewrite Ha, Hb. Qed.

Lemma real_extract_no_cid `{InfoExtractor} url vid webpage e :
  _match_id url = mret vid →
  _download_webpage url vid = inr webpage →
  embedded_id webpage = raise e →
  _real_extract url = raise e.
Proof.
  intros Hid Hpage Hcid. unfold _real_extract.
  by rewrite Hid, bind_ret, Hpage, bind_lift_ok, Hcid.
Qed.

(** C7. The embedded id comes from the EmbedPlayer pattern when it
    matches, from the secure-iframe pattern only when the first is absent,
    as the first value of key cid among the URL-decoded parameters of the
    matched fragment; when neither pattern matches anywhere in the page
    the extraction raises the not-found error and returns no result. *)
Theorem C7_embedded_id (webpage : string) :
  (∀ m, Re.search player_params_embed webpage = Some m →
     ∃ frag, m !! 1%nat = Some frag ∧ embedded_id webpage = cid_of_fragment frag)
  ∧ (Re.search player_params_embed webpage = None →
     ∀ m, Re.search player_params_iframe webpage = Some m →
     ∃ frag, m !! 1%nat = Some frag ∧ embedded_id webpage = cid_of_fragment frag)
  ∧ (Re.search player_params_embed webpage = None →
     Re.search player_params_iframe webpage = None →
     embedded_id webpage
     = raise (RegexNotFoundError "Unable to extract player parameters")
     ∧ ∀ (ie : InfoExtractor) url vid,
         _match_id url = mret vid →
         _download_webpage url vid = inr webpage →
         _real_extract url
         = raise (RegexNotFoundError "Unable to extract player parameters")).
Proof.
  split; [| split].
  - intros m Hs. destruct (first_match_embed _ _ Hs) as (frag & Hf & Hm).
    exists frag. split; [done |]. by apply embedded_id_found.
  - intros Ha m Hs. destruct (first_match_iframe _ _ Ha Hs) as (frag & Hf & Hm).
    exists frag. split; [done |]. by apply embedded_id_found.
  - intros Ha Hb.
    pose proof (embedded_id_not_found _ (first_match_neither _ Ha Hb)) as He.
    split; [done |]. intros ie url vid Hid Hpage.
    by apply (real_extract_no_cid url vid webpage).
Qed.

Lemma C7_embedded_id_witness :
  embedded_id Demo.page = mret "12345"
  ∧ embedded_id Demo.page_iframe = mret "777"
  ∧ _real_extract (H := Demo.host Demo.page_bare (inl (HostError "unused"))) Demo.url
    = raise (RegexNotFoundError "Unable to extract player parameters").
Proof.
  split; [| split].
  - destruct (C7_embedded_id Demo.page) as (HA & _ & _).
    destruct (HA _ eq_refl) as (frag & Hf & ->).
    vm_compute in Hf. injection Hf as <-. vm_compute. reflexivity.
  - destruct (C7_embedded_id Demo.page_iframe) as (_ & HB & _).
    destruct (HB eq_refl _ eq_refl) as (frag & Hf & ->).
    vm_compute in Hf. injection Hf as <-. vm_compute. reflexivity.
  - destruct (C7_embedded_id Demo.page_bare) as (_ & _ & HN).
    destruct (HN eq_refl eq_refl) as (_ & Hr).
    apply (Hr _ Demo.url "1074402"); [vm_compute; reflexivity | reflexivity].
Defined.

(** C10. When a player-parameter pattern matches but the matched
    fragment has no cid parameter, the extraction dies on the unguarded
    dictionary lookup (KeyError) and not with the not-found error; the
    embedded-id step succeeds exactly when the fragment decodes to at
    least one cid value. *)
Theorem C10_missing_cid `{InfoExtractor} url vid webpage frag :
  _match_id url = mret vid →
  _download_webpage url vid = inr webpage →
  first_match [player_params_embed; player_params_iframe] webpage = Some frag →
  (parse_qs frag !! "cid" = None →
     _real_extract url = raise (KeyError "cid")
     ∧ _real_extract url ≠ raise (RegexNotFoundError "Unable to extract player parameters"))
  ∧ parse_qs frag !! "cid" ≠ Some []
  ∧ ((∃ c, embedded_id webpage = mret c)
     ↔ (∃ c cs, parse_qs frag !! "cid" = Some (c :: cs))).
Proof.
  intros Hid Hpage Hm. pose proof (embedded_id_found _ _ Hm) as Hcid.
  unfold cid_of_fragment in Hcid. rewrite parse_qs_lookup.
  destruct (vals "cid" (parse_qsl frag)) as [| c cs].
  - split; [| split; [done |]].
    + intros _. rewrite (real_extract_no_cid url vid webpage (KeyError "cid")) by done.
      done.
    + rewrite Hcid. split; [intros [c [=]] | intros (c & cs & [=])].
  - split; [done |]. split; [done |]. rewrite Hcid. split; eauto.
Qed.

Lemma C10_missing_cid_witness :
  _real_extract (H := Demo.host Demo.page_nocid (inl (HostError "unused"))) Demo.url
  = raise (KeyError "cid").
Proof.
  destruct (C10_missing_cid (H := Demo.host Demo.page_nocid (inl (HostError "unused")))
              Demo.url "1074402" Demo.page_nocid "aid=7") as (Hk & _);
    [vm_compute; reflexivity | reflexivity | vm_compute; reflexivity |].
  apply Hk. vm_compute. reflexivity.
Defined.

(** ** Entries *)

Lemma forallb_is_vstr (l : list value) :
  forallb is_vstr l = true → ∃ bs : list string, l = VStr <$> bs.
Proof.
  induction l as [| v l IH]; [by exists [] |].
  cbn [forallb]. intros [Hv Hl]%andb_true_iff.
  destruct (IH Hl) as [bs ->]. destruct v; try done.
  by exists (s :: bs).
Qed.

Lemma wf_durl_inv (durl : value) :
  wf_durl durl = true →
  ∃ (d : gmap string value) url size (bs : list string),
    durl = VDict d ∧ d !! "url" = Some url ∧ d !! "size" = Some size
    ∧ d !! "backup_url" = Some (VList (VStr <$> bs)).
Proof.
  destruct durl as [| | | | | | d]; try done. cbn [wf_durl].
  destruct (d !! "url") as [url |] eqn:Hurl; [| done].
  destruct (d !! "size") as [size |] eqn:Hsize; [| done].
  destruct (d !! "backup_url") as [[| | | | | l |] |] eqn:Hbs; try done.
  intros [bs ->]%forallb_is_vstr. by exists d, url, size, bs.
Qed.

Lemma durl_entry_eq vid idx (d : gmap string value) url size (bs : list string) :
  d !! "url" = Some url →
  d !! "size" = Some size →
  d !! "backup_url" = Some (VList (VStr <$> bs)) →
  durl_entry vid idx (VDict d)
  = mret (VDict
      (<["id" := VStr (vid +:+ "_part" +:+ str_of_nat idx)]>
       (<["duration" := float_or_none (dict_get d "length") 1000]>
        (<["formats" := VList (_sort_formats
             (VDict (primary_of url size) :: (VDict ∘ backup_of <$> bs)))]> ∅)))).
Proof.
  intros Hurl Hsize Hbs. unfold durl_entry.
  rewrite (durl_formats_eq d url size bs) by done.
  rewrite bind_ret. cbn [py_get]. by rewrite bind_ret.
Qed.

(** A well-formed record yields an entry with the temporary id, its own
    duration and its formats. *)
Lemma durl_entry_ok vid idx durl :
  wf_durl durl = true →
  ∃ (d e : gmap string value) formats,
    durl = VDict d
    ∧ durl_entry vid idx durl = mret (VDict e)
    ∧ durl_formats durl = mret formats
    ∧ e !! "id" = Some (VStr (vid +:+ "_part" +:+ str_of_nat idx))
    ∧ e !! "duration" = Some (float_or_none (dict_get d "length") 1000)
    ∧ e !! "formats" = Some (VList formats)
    ∧ e !! "_type" = None.
Proof.
  intros (d & url & size & bs & -> & Hurl & Hsize & Hbs)%wf_durl_inv.
  eexists d, _, _. split; [done |].
  split; [by apply (durl_entry_eq vid idx d url size bs) |].
  split; [by apply (durl_formats_eq d url size bs) |]. done.
Qed.

Lemma build_entries_ok vid (durls : list value) : ∀ k,
  Forall (λ durl, wf_durl durl = true) durls →
  ∃ entries : list (gmap string value),
    build_entries vid k durls = mret (VDict <$> entries)
    ∧ length entries = length durls
    ∧ Forall (λ e : gmap string value, e !! "_type" = None) entries
    ∧ ∀ i durl, durls !! i = Some durl →
        ∃ e, entries !! i = Some e
             ∧ durl_entry vid (k + i) durl = mret (VDict e).
Proof.
  induction durls as [| durl durls IH]; intros k Hwf.
  - exists []. repeat split; [constructor |]. intros i durl. by rewrite lookup_nil.
  - apply Forall_cons in Hwf as [Hd Hwf].
    destruct (durl_entry_ok vid k durl Hd) as (d & e & fs & _ & He & _ & _ & _ & _ & Hty).
    destruct (IH (S k) Hwf) as (entries & Hb & Hlen & Hall & Hi).
    exists (e :: entries). cbn [build_entries]. rewrite He, bind_ret, Hb, bind_ret.
    split; [done |]. split; [cbn [length]; by rewrite Hlen |].
    split; [by constructor |].
    intros [| i] durl'; cbn [lookup list_lookup].
    + intros [= <-]. exists e. by rewrite Nat.add_0_r.
    + intros Hl. destruct (Hi i durl' Hl) as (e' & He' & Hd').
      exists e'. split; [done |]. by rewrite Nat.add_succ_r.
Qed.

(** ** Page metadata *)

(** The warnings of the non-fatal search for the upload time. *)
Lemma upload_time_search `{InfoExtractor} webpage :
  _html_search_regex [upload_time_re] webpage "upload time" false
  = match first_match [upload_time_re] webpage with
    | Some u => mret (VStr (clean_html u))
    | None => (["unable to extract upload time"], inr VNone)
    end.
Proof.
  unfold _html_search_regex, _search_regex.
  destruct (first_match [upload_time_re] webpage); [by rewrite bind_ret | reflexivity].
Qed.

Lemma bind_warn {A B} (w : list string) (x : A) (f : A → M B) :
  (((w, inr x) : M A) ≫= f) = (w ++ (f x).1, (f x).2).
Proof. unfold mbind, M_bind. by destruct (f x). Qed.

Lemma page_info_ok `{InfoExtractor} vid webpage (vi : gmap string value) t :
  first_match [title_re] webpage = Some t →
  ∃ info : gmap string value,
    page_info vid webpage (VDict vi)
    = (match first_match [upload_time_re] webpage with
       | Some _ => []
       | None => ["unable to extract upload time"]
       end,
       inr (VStr (clean_html t), opt_str (_html_search_meta "description" webpage), info))
    ∧ info !! "id" = Some (VStr vid)
    ∧ info !! "title" = Some (VStr (clean_html t))
    ∧ info !! "duration" = Some (float_or_none (dict_get vi "timelength") 1000)
    ∧ info !! "timestamp"
      = Some (match first_match [upload_time_re] webpage with
              | Some u => unified_timestamp (VStr (clean_html u))
              | None => VNone
              end)
    ∧ info !! "formats" = None
    ∧ info !! "_type" = None.
Proof.
  intros Ht. unfold page_info.
  replace (_html_search_regex [title_re] webpage "title" true)
    with (mret (M := M) (VStr (clean_html t)))
    by (unfold _html_search_regex, _search_regex; by rewrite Ht, bind_ret).
  rewrite bind_ret, upload_time_search. cbn [py_get].
  destruct (first_match [upload_time_re] webpage) as [u |];
    [rewrite bind_ret | rewrite bind_warn]; rewrite bind_ret;
    destruct (Re.search uploader_re webpage) as [m |];
    eexists; (split; [reflexivity |]); done.
Qed.

(** ** Assembly *)

Lemma assemble_single vid title description (info e : gmap string value) :
  assemble vid title description info [VDict e] = VDict (info ∪ e).
Proof. reflexivity. Qed.

Lemma assemble_multi vid title description (info : gmap string value)
  (entries : list (gmap string value)) :
  length entries ≠ 1%nat →
  assemble vid title description info (VDict <$> entries)
  = VDict (<["_type" := VStr "multi_video"]>
           (<["id" := VStr vid]>
            (<["title" := title]>
             (<["description" := description]>
              (<["entries" := VList (imap (renumber vid)
                                       (entry_update info <$> (VDict <$> entries)))]> ∅))))).
Proof. intros Hlen. by destruct entries as [| e1 [| e2 es]]. Qed.

Lemma renumbered_lookup vid (info : gmap string value)
  (entries : list (gmap string value)) i e :
  entries !! i = Some e →
  imap (renumber vid) (entry_update info <$> (VDict <$> entries)) !! i
  = Some (VDict (<["id" := VStr (vid +:+ "_part" +:+ str_of_nat (i + 1))]> (info ∪ e))).
Proof.
  intros He. rewrite list_lookup_imap, !list_lookup_fmap, He. reflexivity.
Qed.

Lemma length_renumbered vid (info : gmap string value) (entries : list (gmap string value)) :
  length (imap (renumber vid) (entry_update info <$> (VDict <$> entries)))
  = length entries.
Proof. by rewrite length_imap, !length_fmap. Qed.

(** A field of [info] other than the id reaches every entry of the
    result, whatever the entry carried under that key. *)
Lemma merged_field vid title description (info : gmap string value)
  (entries : list (gmap string value)) k v :
  k ≠ "id" →
  info !! k = Some v →
  info !! "_type" = None →
  Forall (λ e : gmap string value, e !! "_type" = None) entries →
  Forall (λ x, field k x = Some v)
    (result_entries (assemble vid title description info (VDict <$> entries))).
Proof.
  intros Hk Hv Hty Hall.
  destruct (decide (length entries = 1%nat)) as [Hlen | Hlen].
  - destruct entries as [| e [| e' es]]; try done.
    rewrite fmap_cons, fmap_nil, assemble_single.
    apply Forall_cons in Hall as [He _].
    cbn [result_entries]. rewrite (lookup_union_None_2 _ _ _ Hty He).
    repeat constructor. cbn [field]. by apply lookup_union_Some_l.
  - rewrite assemble_multi by done.
    change (result_entries _)
      with (imap (renumber vid) (entry_update info <$> (VDict <$> entries))).
    apply Forall_lookup. intros i x Hx.
    assert (is_Some (entries !! i)) as [e He].
    { apply lookup_lt_is_Some. rewrite <- (length_renumbered vid info).
      by apply lookup_lt_Some with x. }
    rewrite (renumbered_lookup vid info entries i e He) in Hx. injection Hx as <-.
    cbn [field]. rewrite lookup_insert_ne by done. by apply lookup_union_Some_l.
Qed.

Section Extraction.
Context `{InfoExtractor}.

Lemma extract_info_ok vid webpage (vi : gmap string value) durls t :
  vi !! "durl" = Some (VList durls) →
  Forall (λ durl, wf_durl durl = true) durls →
  first_match [title_re] webpage = Some t →
  ∃ (entries : list (gmap string value)) (info : gmap string value),
    extract_info vid webpage (VDict vi)
    = (match first_match [upload_time_re] webpage with
       | Some _ => []
       | None => ["unable to extract upload time"]
       end,
       inr (assemble vid (VStr (clean_html t))
              (opt_str (_html_search_meta "description" webpage))
              info (VDict <$> entries)))
    ∧ length entries = length durls
    ∧ Forall (λ e : gmap string value, e !! "_type" = None) entries
    ∧ (∀ i durl, durls !! i = Some durl →
         ∃ e, entries !! i = Some e ∧ durl_entry vid i durl = mret (VDict e))
    ∧ info !! "id" = Some (VStr vid)
    ∧ info !! "title" = Some (VStr (clean_html t))
    ∧ info !! "duration" = Some (float_or_none (dict_get vi "timelength") 1000)
    ∧ info !! "timestamp"
      = Some (match first_match [upload_time_re] webpage with
              | Some u => unified_timestamp (VStr (clean_html u))
              | None => VNone
              end)
    ∧ info !! "formats" = None
    ∧ info !! "_type" = None.
Proof.
  intros Hdurl Hwf Ht.
  destruct (build_entries_ok vid durls 0 Hwf) as (entries & Hb & Hlen & Hall & Hi).
  destruct (page_info_ok vid webpage vi t Ht) as (info & Hp & ? & ? & ? & ? & ? & ?).
  exists entries, info. split; [| done].
  unfold extract_info, getitem. rewrite Hdurl, bind_ret. cbn [iterate].
  rewrite bind_ret, Hb, bind_ret, Hp, bind_warn. cbn [fst snd mret M_ret].
  by rewrite app_nil_r.
Qed.

End Extraction.

(** ** The shape of the result *)

(** C1 as stated fails: with a single durl record the returned entry
    carries the video id, not the temporary part id. *)
Lemma C1_id_is_not_part0 :
  ∃ r, outcome (_real_extract (H := Demo.host Demo.page (inr Demo.single)) Demo.url)
       = inr r
    ∧ field "_type" r = None
    ∧ field "id" r = Some (VStr "1074402")
    ∧ field "id" r ≠ Some (VStr "1074402_part0").
Proof. eexists. split; [vm_compute; reflexivity |]. done. Qed.

(** C1 (amended). With exactly one durl record the result is the entry
    built from that record, returned directly with no collection wrapper;
    its id is the video id, the temporary id of the entry (video id
    followed by _part0) being overwritten when the page metadata is
    merged into it. *)
Theorem C1_single_entry `{InfoExtractor} url vid webpage cid
  (vi : gmap string value) durl t :
  _match_id url = mret vid →
  _download_webpage url vid = inr webpage →
  embedded_id webpage = mret cid →
  _download_json (playurl (payload_of cid) (sign_of (payload_of cid))) vid
    = inr (VDict vi) →
  vi !! "durl" = Some (VList [durl]) →
  wf_durl durl = true →
  first_match [title_re] webpage = Some t →
  ∃ (e r : gmap string value) formats,
    durl_entry vid 0 durl = mret (VDict e)
    ∧ durl_formats durl = mret formats
    ∧ outcome (_real_extract url) = inr (VDict r)
    ∧ r !! "_type" = None
    ∧ r !! "formats" = Some (VList formats)
    ∧ e !! "id" = Some (VStr (vid +:+ "_part0"))
    ∧ r !! "id" = Some (VStr vid).
Proof.
  intros Hid Hpage Hcid Hjson Hdurl Hwf Ht.
  rewrite (real_extract_fetched url vid webpage cid (VDict vi)) by done.
  destruct (extract_info_ok vid webpage vi [durl] t Hdurl) as
    (entries & info & -> & Hlen & Hall & Hi & Hiid & Hit & Hidur & Hits & Hif & Hity);
    [by repeat constructor | done |].
  destruct (Hi 0%nat durl eq_refl) as (e & He & Hentry).
  destruct (durl_entry_ok vid 0 durl Hwf) as
    (d & e' & formats & _ & Hentry' & Hformats & Heid & _ & Hef & Hety).
  rewrite Hentry in Hentry'. injection Hentry' as <-.
  destruct entries as [| e0 [| e1 es]]; try done. injection He as ->.
  exists e, (info ∪ e), formats. cbn [outcome snd fmap list_fmap].
  rewrite assemble_single.
  split; [done |]. split; [done |]. split; [done |].
  split; [by apply lookup_union_None_2 |].
  split; [by rewrite lookup_union_r |].
  split; [done |]. by apply lookup_union_Some_l.
Qed.

Lemma C1_single_entry_witness :
  ∃ r : gmap string value,
    outcome (_real_extract (H := Demo.host Demo.page (inr Demo.single)) Demo.url)
    = inr (VDict r)
    ∧ r !! "_type" = None
    ∧ r !! "id" = Some (VStr "1074402").
Proof.
  destruct (C1_single_entry (H := Demo.host Demo.page (inr Demo.single))
              Demo.url "1074402" Demo.page "12345"
              (<["durl" := VList [Demo.durl_a]]> (<["timelength" := VInt 5000]> ∅))
              Demo.durl_a "Hello")
    as (e & r & formats & _ & _ & Hr & Hty & _ & _ & Hid);
    [ vm_compute; reflexivity | reflexivity | vm_compute; reflexivity
    | vm_compute; reflexivity | reflexivity | reflexivity
    | vm_compute; reflexivity | ].
  exists r. by repeat split.
Defined.

(** C3. With two or more durl records the result is a multi_video
    wrapper carrying the video id, the title, the description and one
    entry per record in the order of the durl array, the entry at index i
    having id video id followed by _part and i+1. *)
Theorem C3_multi_part `{InfoExtractor} url vid webpage cid
  (vi : gmap string value) durls t :
  _match_id url = mret vid →
  _download_webpage url vid = inr webpage →
  embedded_id webpage = mret cid →
  _download_json (playurl (payload_of cid) (sign_of (payload_of cid))) vid
    = inr (VDict vi) →
  vi !! "durl" = Some (VList durls) →
  (2 ≤ length durls)%nat →
  Forall (λ durl, wf_durl durl = true) durls →
  first_match [title_re] webpage = Some t →
  ∃ entries : list value,
    outcome (_real_extract url)
    = inr (VDict (<["_type" := VStr "multi_video"]>
                  (<["id" := VStr vid]>
                   (<["title" := VStr (clean_html t)]>
                    (<["description" := opt_str (_html_search_meta "description" webpage)]>
                     (<["entries" := VList entries]> ∅))))))
    ∧ length entries = length durls
    ∧ ∀ i durl, durls !! i = Some durl →
        ∃ (r : gmap string value) formats,
          entries !! i = Some (VDict r)
          ∧ durl_formats durl = mret formats
          ∧ r !! "formats" = Some (VList formats)
          ∧ r !! "id" = Some (VStr (vid +:+ "_part" +:+ str_of_nat (i + 1))).
Proof.
  intros Hid Hpage Hcid Hjson Hdurl Hlen2 Hwf Ht.
  rewrite (real_extract_fetched url vid webpage cid (VDict vi)) by done.
  destruct (extract_info_ok vid webpage vi durls t Hdurl Hwf Ht) as
    (entries & info & -> & Hlen & Hall & Hi & Hiid & Hit & Hidur & Hits & Hif & Hity).
  cbn [outcome snd]. rewrite assemble_multi by lia.
  eexists. split; [reflexivity |].
  split; [by rewrite length_renumbered |].
  intros i durl Hl. destruct (Hi i durl Hl) as (e & He & Hentry).
  assert (Hd : wf_durl durl = true).
  { rewrite Forall_forall in Hwf. apply Hwf. by apply list_elem_of_lookup_2 with i. }
  destruct (durl_entry_ok vid i durl Hd) as
    (d & e' & formats & _ & Hentry' & Hformats & _ & _ & Hef & _).
  rewrite Hentry in Hentry'. injection Hentry' as <-.
  exists (<["id" := VStr (vid +:+ "_part" +:+ str_of_nat (i + 1))]> (info ∪ e)), formats.
  split; [by apply renumbered_lookup |]. split; [done |].
  split; [| by rewrite lookup_insert_eq].
  rewrite lookup_insert_ne by done. by rewrite lookup_union_r.
Qed.

Lemma C3_multi_part_witness :
  ∃ r (entries : list value),
    outcome (_real_extract (H := Demo.host Demo.page (inr Demo.two_parts)) Demo.url)
    = inr r
    ∧ field "entries" r = Some (VList entries)
    ∧ field "id" <$> entries
      = [Some (VStr "1074402_part1"); Some (VStr "1074402_part2")].
Proof.
  destruct (C3_multi_part (H := Demo.host Demo.page (inr Demo.two_parts))
              Demo.url "1074402" Demo.page "12345"
              (<["durl" := VList [Demo.durl_a; Demo.durl_b]]>
               (<["timelength" := VInt 8000]> ∅))
              [Demo.durl_a; Demo.durl_b] "Hello")
    as (entries & Hr & Hlen & Hi);
    [ vm_compute; reflexivity | reflexivity | vm_compute; reflexivity
    | vm_compute; reflexivity | reflexivity | cbn [length]; lia
    | by repeat constructor | vm_compute; reflexivity | ].
  eexists _, entries. split; [exact Hr |]. split; [reflexivity |].
  destruct (Hi 0%nat _ eq_refl) as (r0 & f0 & H0 & _ & _ & Hid0).
  destruct (Hi 1%nat _ eq_refl) as (r1 & f1 & H1 & _ & _ & Hid1).
  destruct entries as [| x0 [| x1 [| x2 xs]]]; try done.
  cbn in H0, H1. injection H0 as ->. injection H1 as ->.
  cbn [fmap list_fmap field]. by rewrite Hid0, Hid1.
Defined.

(** C8. A page with no time tag still extracts: the only warning is
    the one about the upload time, the result has no timestamp, and every
    entry carries an unset timestamp. *)
Theorem C8_missing_upload_time `{InfoExtractor} url vid webpage cid
  (vi : gmap string value) durls t :
  _match_id url = mret vid →
  _download_webpage url vid = inr webpage →
  embedded_id webpage = mret cid →
  _download_json (playurl (payload_of cid) (sign_of (payload_of cid))) vid
    = inr (VDict vi) →
  vi !! "durl" = Some (VList durls) →
  Forall (λ durl, wf_durl durl = true) durls →
  first_match [title_re] webpage = Some t →
  Re.search upload_time_re webpage = None →
  ∃ r : gmap string value,
    _real_extract url = (["unable to extract upload time"], inr (VDict r))
    ∧ contains "upload time" "unable to extract upload time" = true
    ∧ dict_get r "timestamp" = VNone
    ∧ Forall (λ e, field "timestamp" e = Some VNone) (result_entries (VDict r)).
Proof.
  intros Hid Hpage Hcid Hjson Hdurl Hwf Ht Htime.
  rewrite (real_extract_fetched url vid webpage cid (VDict vi)) by done.
  destruct (extract_info_ok vid webpage vi durls t Hdurl Hwf Ht) as
    (entries & info & -> & Hlen & Hall & Hi & Hiid & Hit & Hidur & Hits & Hif & Hity).
  assert (Hnone : first_match [upload_time_re] webpage = None)
    by (cbn [first_match]; by rewrite Htime).
  rewrite Hnone in Hits |- *.
  pose proof (merged_field vid (VStr (clean_html t))
                (opt_str (_html_search_meta "description" webpage))
                info entries "timestamp" VNone) as Hm.
  destruct (decide (length entries = 1%nat)) as [Hone | Hmany].
  - destruct entries as [| e [| e' es]]; try done.
    rewrite fmap_cons, fmap_nil, assemble_single in Hm |- *.
    eexists. split; [reflexivity |]. split; [reflexivity |].
    split; [| by apply Hm].
    unfold dict_get. by rewrite (lookup_union_Some_l _ _ _ _ Hits).
  - rewrite assemble_multi in Hm |- * by done.
    eexists. split; [reflexivity |]. split; [reflexivity |].
    split; [reflexivity | by apply Hm].
Qed.

Lemma C8_missing_upload_time_witness :
  ∃ r : gmap string value,
    _real_extract (H := Demo.host Demo.page (inr Demo.single)) Demo.url
    = (["unable to extract upload time"], inr (VDict r))
    ∧ dict_get r "timestamp" = VNone.
Proof.
  destruct (C8_missing_upload_time (H := Demo.host Demo.page (inr Demo.single))
              Demo.url "1074402" Demo.page "12345"
              (<["durl" := VList [Demo.durl_a]]> (<["timelength" := VInt 5000]> ∅))
              [Demo.durl_a] "Hello")
    as (r & Hr & _ & Hts & _);
    [ vm_compute; reflexivity | reflexivity | vm_compute; reflexivity
    | vm_compute; reflexivity | reflexivity | by repeat constructor
    | vm_compute; reflexivity | vm_compute; reflexivity | ].
  by exists r.
Defined.

(** With the time tag present the same page extracts without warning and
    with the parsed timestamp. *)
Example upload_time_present :
  ∃ r, _real_extract (H := Demo.host Demo.page_timed (inr Demo.single)) Demo.url
       = ([], inr r)
    ∧ field "timestamp" r = Some (VInt 1398012660).
Proof. eexists. split; [vm_compute; reflexivity |]. done. Qed.

(** ** Ranking, durations and sizes *)

(** C6. The formats attached to an entry are ranked: the primary
    first, then the backups whose URL contains hd.mp4, then the other
    backups, each tier in the order of the record; for backups b1 (with
    hd.mp4) and b2 (without) the list is primary, b1, b2. *)
Theorem C6_format_order vid idx (d : gmap string value) url size (bs : list string) :
  d !! "url" = Some url →
  d !! "size" = Some size →
  d !! "backup_url" = Some (VList (VStr <$> bs)) →
  ∃ e : gmap string value,
    durl_entry vid idx (VDict d) = mret (VDict e)
    ∧ e !! "formats"
      = Some (VList (VDict (primary_of url size)
                     :: (VDict ∘ backup_of <$> List.filter is_hd bs)
                     ++ (VDict ∘ backup_of <$> List.filter (negb ∘ is_hd) bs)))
    ∧ (∀ b1 b2,
         bs = [b1; b2] →
         (∃ pre post, b1 = pre +:+ "hd.mp4" +:+ post) →
         (¬ ∃ pre post, b2 = pre +:+ "hd.mp4" +:+ post) →
         e !! "formats"
         = Some (VList [VDict (primary_of url size); VDict (backup_of b1);
                        VDict (backup_of b2)])
         ∧ preference (VDict (primary_of url size)) = None
         ∧ preference (VDict (backup_of b1)) = Some (-2)
         ∧ preference (VDict (backup_of b2)) = Some (-3)).
Proof.
  intros Hurl Hsize Hbs. eexists. split; [by apply durl_entry_eq |].
  rewrite sort_durl_formats. split; [reflexivity |].
  intros b1 b2 -> H1 H2. apply contains_spec in H1.
  assert (H2' : contains "hd.mp4" b2 = false).
  { destruct (contains "hd.mp4" b2) eqn:Hc; [| done]. by apply contains_spec in Hc. }
  rewrite !preference_backup, H1, H2'. cbn [List.filter compose]. unfold is_hd.
  by rewrite H1, H2'.
Qed.

Lemma C6_format_order_witness :
  ∃ (e : gmap string value) formats,
    durl_entry "1074402" 0 Demo.durl_a = mret (VDict e)
    ∧ e !! "formats" = Some (VList formats)
    ∧ field "url" <$> formats
      = [Some (VStr "http://x/a.mp4"); Some (VStr "http://x/a_hd.mp4");
         Some (VStr "http://x/a2.mp4")].
Proof.
  destruct (C6_format_order "1074402" 0
              (<["url" := VStr "http://x/a.mp4"]>
               (<["size" := VInt 100]>
                (<["length" := VInt 5000]>
                 (<["backup_url" := VList (VStr <$> ["http://x/a_hd.mp4"; "http://x/a2.mp4"])]> ∅))))
              (VStr "http://x/a.mp4") (VInt 100)
              ["http://x/a_hd.mp4"; "http://x/a2.mp4"])
    as (e & He & _ & Hord); [reflexivity | reflexivity | reflexivity |].
  destruct (Hord _ _ eq_refl) as (Hf & _).
  { by exists "http://x/a_", EmptyString. }
  { intros Hc. apply contains_spec in Hc. vm_compute in Hc. done. }
  exists e. eexists. split; [| split; [exact Hf | reflexivity]].
  rewrite <- He. vm_compute. reflexivity.
Defined.

(** Every entry of the result carries the total duration of the API
    answer, whatever the length of its own record. *)
Lemma duration_is_timelength `{InfoExtractor} url vid webpage cid
  (vi : gmap string value) durls t :
  _match_id url = mret vid →
  _download_webpage url vid = inr webpage →
  embedded_id webpage = mret cid →
  _download_json (playurl (payload_of cid) (sign_of (payload_of cid))) vid
    = inr (VDict vi) →
  vi !! "durl" = Some (VList durls) →
  Forall (λ durl, wf_durl durl = true) durls →
  first_match [title_re] webpage = Some t →
  ∃ r, outcome (_real_extract url) = inr r
    ∧ Forall (λ e, field "duration" e
                   = Some (float_or_none (dict_get vi "timelength") 1000))
        (result_entries r).
Proof.
  intros Hid Hpage Hcid Hjson Hdurl Hwf Ht.
  rewrite (real_extract_fetched url vid webpage cid (VDict vi)) by done.
  destruct (extract_info_ok vid webpage vi durls t Hdurl Hwf Ht) as
    (entries & info & -> & Hlen & Hall & Hi & Hiid & Hit & Hidur & Hits & Hif & Hity).
  eexists. split; [reflexivity |]. by apply merged_field.
Qed.

(** C2 fails on the code: in a two-part answer whose records last 5 and
    3 seconds and whose total is 8 seconds, both entries of the result
    carry 8 seconds. *)
Theorem C2_duration_overwritten :
  field "length" Demo.durl_a = Some (VInt 5000)
  ∧ field "length" Demo.durl_b = Some (VInt 3000)
  ∧ ∃ r, outcome (_real_extract (H := Demo.host Demo.page (inr Demo.two_parts)) Demo.url)
         = inr r
      ∧ field "duration" <$> result_entries r
        = [Some (VFloat (8000 # 1000)); Some (VFloat (8000 # 1000))]
      ∧ ¬ (8000 # 1000 == 5000 # 1000)%Q
      ∧ ¬ (8000 # 1000 == 3000 # 1000)%Q.
Proof.
  split; [reflexivity |]. split; [reflexivity |].
  eexists. split; [vm_compute; reflexivity |].
  split; [vm_compute; reflexivity |]. split; by intros Hq.
Qed.

(** C9 fails on the code: a record without its size aborts the
    extraction with a KeyError, where the record's length, read with
    [get], may be absent. *)
Theorem C9_missing_size_aborts :
  field "size" Demo.durl_nosize = None
  ∧ durl_formats Demo.durl_nosize = raise (KeyError "size")
  ∧ _real_extract (H := Demo.host Demo.page (inr Demo.sizeless)) Demo.url
    = raise (KeyError "size")
  ∧ ∃ r, outcome (_real_extract
                    (H := Demo.host Demo.page
                            (inr (Demo.video_info
                                    [Demo.durl "http://x/c.mp4" (Some 7) None []]
                                    None)))
                    Demo.url) = inr r
         ∧ field "duration" r = Some VNone.
Proof.
  split; [reflexivity |]. split; [reflexivity |].
  split; [vm_compute; reflexivity |].
  eexists. split; [vm_compute; reflexivity |]. reflexivity.
Qed.

(** The end-to-end example of the specification: one part, 5 seconds,
    the primary format followed by the hd backup. *)
Example spec_end_to_end :
  ∃ r, _real_extract (H := Demo.host Demo.page_spec (inr Demo.answer_spec)) Demo.url
       = (["unable to extract upload time"], inr r)
    ∧ field "_type" r = None
    ∧ field "id" r = Some (VStr "1074402")
    ∧ field "duration" r = Some (VFloat (5000 # 1000))
    ∧ field "formats" r
      = Some (VList [VDict (<["url" := VStr "http://x/a.mp4"]>
                            (<["filesize" := VInt 100]> ∅));
                     VDict (<["url" := VStr "http://x/a_hd.mp4"]>
                            (<["preference" := VInt (-2)]> ∅))]).
Proof. eexists. split; [vm_compute; reflexivity |]. repeat split. Qed.

(** * Further properties of the extractor *)

(** ** Degenerate API answers *)

(** X1. An empty durl array is not an error: the result is a multi_video
    wrapper with no entry. *)
Theorem empty_durl_gives_empty_wrapper `{InfoExtractor} url vid webpage cid
  (vi : gmap string value) t :
  _match_id url = mret vid →
  _download_webpage url vid = inr webpage →
  embedded_id webpage = mret cid →
  _download_json (playurl (payload_of cid) (sign_of (payload_of cid))) vid
    = inr (VDict vi) →
  vi !! "durl" = Some (VList []) →
  first_match [title_re] webpage = Some t →
  outcome (_real_extract url)
  = inr (VDict (<["_type" := VStr "multi_video"]>
                (<["id" := VStr vid]>
                 (<["title" := VStr (clean_html t)]>
                  (<["description" := opt_str (_html_search_meta "description" webpage)]>
                   (<["entries" := VList []]> ∅)))))).
Proof.
  intros Hid Hpage Hcid Hjson Hdurl Ht.
  rewrite (real_extract_fetched url vid webpage cid (VDict vi)) by done.
  destruct (extract_info_ok vid webpage vi [] t Hdurl) as
    (entries & info & -> & Hlen & _); [constructor | done |].
  destruct entries; [| done]. reflexivity.
Qed.

Lemma empty_durl_gives_empty_wrapper_witness :
  ∃ r, outcome (_real_extract
                  (H := Demo.host Demo.page (inr (Demo.video_info [] None)))
                  Demo.url) = inr r
    ∧ field "entries" r = Some (VList []).
Proof.
  pose proof (empty_durl_gives_empty_wrapper
                (H := Demo.host Demo.page (inr (Demo.video_info [] None)))
                Demo.url "1074402" Demo.page "12345" (<["durl" := VList []]> ∅) "Hello")
    as Hr.
  eexists. split.
  - apply Hr; [ vm_compute; reflexivity | reflexivity | vm_compute; reflexivity
              | reflexivity | reflexivity | vm_compute; reflexivity ].
  - reflexivity.
Defined.

(** X2. An API answer with no durl key, or that is not an object, aborts the
    extraction before the page metadata is looked at: the error is the
    failed subscript, whatever the page holds, and nothing is warned. *)
Theorem missing_durl_aborts `{InfoExtractor} url vid webpage cid video_info :
  _match_id url = mret vid →
  _download_webpage url vid = inr webpage →
  embedded_id webpage = mret cid →
  _download_json (playurl (payload_of cid) (sign_of (payload_of cid))) vid
    = inr video_info →
  field "durl" video_info = None →
  _real_extract url
  = raise (match video_info with VDict _ => KeyError "durl" | _ => TypeError end).
Proof.
  intros Hid Hpage Hcid Hjson Hdurl.
  rewrite (real_extract_fetched url vid webpage cid video_info) by done.
  unfold extract_info, getitem.
  destruct video_info as [| | | | | | vi]; try reflexivity.
  cbn [field] in Hdurl. by rewrite Hdurl.
Qed.

Lemma missing_durl_aborts_witness :
  _real_extract (H := Demo.host Demo.page_untitled (inr (VDict ∅))) Demo.url
  = raise (KeyError "durl")
  ∧ _real_extract (H := Demo.host Demo.page_untitled (inr (VList []))) Demo.url
    = raise TypeError.
Proof.
  split.
  - apply (missing_durl_aborts (H := Demo.host Demo.page_untitled (inr (VDict ∅)))
             Demo.url "1074402" Demo.page_untitled "12345" (VDict ∅));
      [vm_compute; reflexivity | reflexivity | vm_compute; reflexivity | reflexivity
      | reflexivity].
  - apply (missing_durl_aborts (H := Demo.host Demo.page_untitled (inr (VList [])))
             Demo.url "1074402" Demo.page_untitled "12345" (VList []));
      [vm_compute; reflexivity | reflexivity | vm_compute; reflexivity | reflexivity
      | reflexivity].
Defined.

(** ** Broken durl records *)

Lemma durl_formats_missing (d : gmap string value) k :
  first_missing d = Some k → durl_formats (VDict d) = raise (KeyError k).
Proof.
  unfold first_missing, durl_formats, getitem. cbn [List.find].
  destruct (d !! "url") as [url |]; [| by intros [= <-]]. rewrite bind_ret.
  destruct (d !! "size") as [size |]; [| by intros [= <-]]. rewrite bind_ret.
  destruct (d !! "backup_url") as [b |]; [done | by intros [= <-]].
Qed.

Lemma durl_formats_not_iterable (d : gmap string value) url size b :
  d !! "url" = Some url →
  d !! "size" = Some size →
  d !! "backup_url" = Some b →
  not_iterable b = true →
  durl_formats (VDict d) = raise TypeError.
Proof.
  intros Hurl Hsize Hb Hn. unfold durl_formats, getitem.
  rewrite Hurl, bind_ret, Hsize, bind_ret, Hb, bind_ret.
  by destruct b.
Qed.

Lemma durl_entry_abort vid idx durl e :
  durl_formats durl = raise e → durl_entry vid idx durl = raise e.
Proof. intros He. unfold durl_entry. by rewrite He. Qed.

(** The loop stops at the first record it cannot turn into an entry. *)
Lemma build_entries_abort vid (good : list value) bad rest e : ∀ k,
  Forall (λ durl, wf_durl durl = true) good →
  durl_formats bad = raise e →
  build_entries vid k (good ++ bad :: rest) = raise e.
Proof.
  induction good as [| durl good IH]; intros k Hwf He.
  - cbn [app build_entries]. by rewrite (durl_entry_abort vid k bad e He).
  - apply Forall_cons in Hwf as [Hd Hwf].
    destruct (durl_entry_ok vid k durl Hd) as (d & x & fs & _ & Hx & _).
    cbn [app build_entries]. by rewrite Hx, bind_ret, (IH (S k) Hwf He).
Qed.

Lemma real_extract_record_abort `{InfoExtractor} url vid webpage cid
  (vi : gmap string value) good bad rest e :
  _match_id url = mret vid →
  _download_webpage url vid = inr webpage →
  embedded_id webpage = mret cid →
  _download_json (playurl (payload_of cid) (sign_of (payload_of cid))) vid
    = inr (VDict vi) →
  vi !! "durl" = Some (VList (good ++ bad :: rest)) →
  Forall (λ durl, wf_durl durl = true) good →
  durl_formats bad = raise e →
  _real_extract url = raise e.
Proof.
  intros Hid Hpage Hcid Hjson Hdurl Hwf He.
  rewrite (real_extract_fetched url vid webpage cid (VDict vi)) by done.
  unfold extract_info, getitem. rewrite Hdurl, bind_ret. cbn [iterate].
  by rewrite bind_ret, (build_entries_abort vid good bad rest e 0 Hwf He).
Qed.

(** X3. A record lacking url, size or backup_url aborts the whole
    extraction with the KeyError of the first key it lacks, in the order
    url, size, backup_url; the records before it, however well formed,
    and the page are of no help: there is no partial result. *)
Theorem broken_record_aborts `{InfoExtractor} url vid webpage cid
  (vi d : gmap string value) good rest k :
  _match_id url = mret vid →
  _download_webpage url vid = inr webpage →
  embedded_id webpage = mret cid →
  _download_json (playurl (payload_of cid) (sign_of (payload_of cid))) vid
    = inr (VDict vi) →
  vi !! "durl" = Some (VList (good ++ VDict d :: rest)) →
  Forall (λ durl, wf_durl durl = true) good →
  first_missing d = Some k →
  _real_extract url = raise (KeyError k).
Proof.
  intros Hid Hpage Hcid Hjson Hdurl Hwf Hk.
  apply (real_extract_record_abort url vid webpage cid vi good (VDict d) rest); try done.
  by apply durl_formats_missing.
Qed.

Lemma broken_record_aborts_witness :
  _real_extract
    (H := Demo.host Demo.page
            (inr (Demo.video_info [Demo.durl_a; Demo.durl_bare; Demo.durl_b] (Some 1))))
    Demo.url
  = raise (KeyError "url").
Proof.
  apply (broken_record_aborts
           (H := Demo.host Demo.page
                   (inr (Demo.video_info [Demo.durl_a; Demo.durl_bare; Demo.durl_b] (Some 1))))
           Demo.url "1074402" Demo.page "12345"
           (<["timelength" := VInt 1]>
            (<["durl" := VList [Demo.durl_a; Demo.durl_bare; Demo.durl_b]]> ∅))
           (<["backup_url" := VList []]> (<["length" := VInt 1000]> ∅))
           [Demo.durl_a] [Demo.durl_b] "url");
    [ vm_compute; reflexivity | reflexivity | vm_compute; reflexivity
    | reflexivity | reflexivity | by repeat constructor | reflexivity ].
Defined.

(** X4. A record whose backup_url is null (or a number or a boolean) aborts
    the whole extraction with a TypeError: the loop over the backup URLs
    has no guard for a value that is not a collection. *)
Theorem null_backup_url_aborts `{InfoExtractor} url vid webpage cid
  (vi d : gmap string value) good rest u size b :
  _match_id url = mret vid →
  _download_webpage url vid = inr webpage →
  embedded_id webpage = mret cid →
  _download_json (playurl (payload_of cid) (sign_of (payload_of cid))) vid
    = inr (VDict vi) →
  vi !! "durl" = Some (VList (good ++ VDict d :: rest)) →
  Forall (λ durl, wf_durl durl = true) good →
  d !! "url" = Some u →
  d !! "size" = Some size →
  d !! "backup_url" = Some b →
  not_iterable b = true →
  _real_extract url = raise TypeError.
Proof.
  intros Hid Hpage Hcid Hjson Hdurl Hwf Hu Hs Hb Hn.
  apply (real_extract_record_abort url vid webpage cid vi good (VDict d) rest); try done.
  by apply (durl_formats_not_iterable d u size b).
Qed.

Lemma null_backup_url_aborts_witness :
  _real_extract
    (H := Demo.host Demo.page (inr (Demo.video_info [Demo.durl_null_backup] None)))
    Demo.url
  = raise TypeError.
Proof.
  apply (null_backup_url_aborts
           (H := Demo.host Demo.page (inr (Demo.video_info [Demo.durl_null_backup] None)))
           Demo.url "1074402" Demo.page "12345"
           (<["durl" := VList [Demo.durl_null_backup]]> ∅)
           (<["url" := VStr "http://x/d.mp4"]>
            (<["size" := VInt 1]> (<["backup_url" := VNone]> ∅)))
           [] [] (VStr "http://x/d.mp4") (VInt 1) VNone);
    [ vm_compute; reflexivity | reflexivity | vm_compute; reflexivity
    | reflexivity | reflexivity | constructor | reflexivity | reflexivity
    | reflexivity | reflexivity ].
Defined.

(** ** The title *)

(** X5. A page without the title heading is fatal even when every stream
    was resolved: the extraction raises the not-found error for the
    title and, the search for the upload time coming later, warns of
    nothing. *)
Theorem missing_title_is_fatal `{InfoExtractor} url vid webpage cid
  (vi : gmap string value) durls :
  _match_id url = mret vid →
  _download_webpage url vid = inr webpage →
  embedded_id webpage = mret cid →
  _download_json (playurl (payload_of cid) (sign_of (payload_of cid))) vid
    = inr (VDict vi) →
  vi !! "durl" = Some (VList durls) →
  Forall (λ durl, wf_durl durl = true) durls →
  Re.search title_re webpage = None →
  _real_extract url = raise (RegexNotFoundError "Unable to extract title").
Proof.
  intros Hid Hpage Hcid Hjson Hdurl Hwf Ht.
  rewrite (real_extract_fetched url vid webpage cid (VDict vi)) by done.
  destruct (build_entries_ok vid durls 0 Hwf) as (entries & Hb & _).
  unfold extract_info, getitem. rewrite Hdurl, bind_ret. cbn [iterate].
  rewrite bind_ret, Hb, bind_ret.
  unfold page_info, _html_search_regex, _search_regex. cbn [first_match].
  by rewrite Ht.
Qed.

Lemma missing_title_is_fatal_witness :
  _real_extract (H := Demo.host Demo.page_untitled (inr Demo.single)) Demo.url
  = raise (RegexNotFoundError "Unable to extract title").
Proof.
  apply (missing_title_is_fatal
           (H := Demo.host Demo.page_untitled (inr Demo.single))
           Demo.url "1074402" Demo.page_untitled "12345"
           (<["durl" := VList [Demo.durl_a]]> (<["timelength" := VInt 5000]> ∅))
           [Demo.durl_a]);
    [ vm_compute; reflexivity | reflexivity | vm_compute; reflexivity
    | vm_compute; reflexivity | reflexivity | by repeat constructor
    | vm_compute; reflexivity ].
Defined.

(** ** The merged metadata *)

(** The [info] dictionary in full. *)
Lemma page_info_eq `{InfoExtractor} vid webpage (vi : gmap string value) t :
  first_match [title_re] webpage = Some t →
  let upload_time := first_match [upload_time_re] webpage in
  let base : gmap string value :=
    <["id" := VStr vid]>
    (<["title" := VStr (clean_html t)]>
     (<["description" := opt_str (_html_search_meta "description" webpage)]>
      (<["timestamp" := match upload_time with
                        | Some u => unified_timestamp (VStr (clean_html u))
                        | None => VNone
                        end]>
       (<["thumbnail" := opt_str (_html_search_meta "thumbnailUrl" webpage)]>
        (<["duration" := float_or_none (dict_get vi "timelength") 1000]> ∅))))) in
  page_info vid webpage (VDict vi)
  = (match upload_time with
     | Some _ => []
     | None => ["unable to extract upload time"]
     end,
     inr (VStr (clean_html t), opt_str (_html_search_meta "description" webpage),
          match Re.search uploader_re webpage with
          | Some m =>
              dict_update base
                (<["uploader" := opt_str (m !! 2%nat)]>
                 (<["uploader_id" := opt_str (m !! 1%nat)]> ∅))
          | None => base
          end)).
Proof.
  intros Ht. cbv zeta. unfold page_info.
  replace (_html_search_regex [title_re] webpage "title" true)
    with (mret (M := M) (VStr (clean_html t)))
    by (unfold _html_search_regex, _search_regex; by rewrite Ht, bind_ret).
  rewrite bind_ret, upload_time_search. cbn [py_get].
  destruct (first_match [upload_time_re] webpage) as [u |];
    [rewrite bind_ret | rewrite bind_warn]; by rewrite bind_ret.
Qed.

(** An entry carries the three keys the loop gives it and no other. *)
Lemma entry_keys vid idx durl (e : gmap string value) k :
  wf_durl durl = true →
  durl_entry vid idx durl = mret (VDict e) →
  k ≠ "id" → k ≠ "duration" → k ≠ "formats" →
  e !! k = None.
Proof.
  intros (d & url & size & bs & -> & Hurl & Hsize & Hbs)%wf_durl_inv He Hi Hd Hf.
  rewrite (durl_entry_eq vid idx d url size bs Hurl Hsize Hbs) in He.
  injection He as <-. by rewrite !lookup_insert_ne, lookup_empty.
Qed.

(** A key that neither [info] nor the entries carry is absent from every
    entry of the result. *)
Lemma unmerged_field vid title description (info : gmap string value)
  (entries : list (gmap string value)) k :
  k ≠ "id" →
  info !! k = None →
  info !! "_type" = None →
  Forall (λ e : gmap string value, e !! "_type" = None ∧ e !! k = None) entries →
  Forall (λ x, field k x = None)
    (result_entries (assemble vid title description info (VDict <$> entries))).
Proof.
  intros Hk Hv Hty Hall.
  destruct (decide (length entries = 1%nat)) as [Hlen | Hlen].
  - destruct entries as [| e [| e' es]]; try done.
    rewrite fmap_cons, fmap_nil, assemble_single.
    apply Forall_cons in Hall as [[He Hek] _].
    cbn [result_entries]. rewrite (lookup_union_None_2 _ _ _ Hty He).
    repeat constructor. cbn [field]. by apply lookup_union_None_2.
  - rewrite assemble_multi by done.
    change (result_entries _)
      with (imap (renumber vid) (entry_update info <$> (VDict <$> entries))).
    apply Forall_lookup. intros i x Hx.
    assert (is_Some (entries !! i)) as [e He].
    { apply lookup_lt_is_Some. rewrite <- (length_renumbered vid info).
      by apply lookup_lt_Some with x. }
    rewrite (renumbered_lookup vid info entries i e He) in Hx. injection Hx as <-.
    cbn [field]. rewrite lookup_insert_ne by done.
    apply lookup_union_None_2; [done |].
    rewrite Forall_lookup in Hall. by destruct (Hall i e He).
Qed.

Section Metadata.
Context `{InfoExtractor}.

(** What a successful extraction returns, with [info] in full and the
    keys of the entries before the merge. *)
Lemma extract_info_full vid webpage (vi : gmap string value) durls t :
  vi !! "durl" = Some (VList durls) →
  Forall (λ durl, wf_durl durl = true) durls →
  first_match [title_re] webpage = Some t →
  ∃ (entries : list (gmap string value)) (info : gmap string value),
    extract_info vid webpage (VDict vi)
    = (match first_match [upload_time_re] webpage with
       | Some _ => []
       | None => ["unable to extract upload time"]
       end,
       inr (assemble vid (VStr (clean_html t))
              (opt_str (_html_search_meta "description" webpage))
              info (VDict <$> entries)))
    ∧ page_info vid webpage (VDict vi)
      = (match first_match [upload_time_re] webpage with
         | Some _ => []
         | None => ["unable to extract upload time"]
         end,
         inr (VStr (clean_html t), opt_str (_html_search_meta "description" webpage), info))
    ∧ length entries = length durls
    ∧ Forall (λ e : gmap string value,
                ∀ k, k ≠ "id" → k ≠ "duration" → k ≠ "formats" → e !! k = None)
        entries.
Proof.
  intros Hdurl Hwf Ht.
  destruct (build_entries_ok vid durls 0 Hwf) as (entries & Hb & Hlen & Hall & Hi).
  pose proof (page_info_eq vid webpage vi t Ht) as Hp. cbv zeta in Hp.
  eexists entries, _. split; [| split; [exact Hp | split; [done |]]].
  - unfold extract_info, getitem. rewrite Hdurl, bind_ret. cbn [iterate].
    rewrite bind_ret, Hb, bind_ret, Hp, bind_warn. cbn [fst snd mret M_ret].
    by rewrite app_nil_r.
  - apply Forall_lookup. intros i e He k.
    assert (is_Some (durls !! i)) as [durl Hd].
    { apply lookup_lt_is_Some. rewrite <- Hlen. by apply lookup_lt_Some with e. }
    destruct (Hi i durl Hd) as (e' & He' & Hentry).
    rewrite He in He'. injection He' as <-.
    apply (entry_keys vid (0 + i) durl); [| done].
    rewrite Forall_forall in Hwf. apply Hwf. by apply list_elem_of_lookup_2 with i.
Qed.

End Metadata.

(** X6. Title, description, thumbnail and timestamp are the page's, the
    same in every entry of the result, single or multi-part: absent
    description and thumbnail are carried as unset values, never as an
    error. *)
Theorem metadata_shared_by_all_parts `{InfoExtractor} url vid webpage cid
  (vi : gmap string value) durls t :
  _match_id url = mret vid →
  _download_webpage url vid = inr webpage →
  embedded_id webpage = mret cid →
  _download_json (playurl (payload_of cid) (sign_of (payload_of cid))) vid
    = inr (VDict vi) →
  vi !! "durl" = Some (VList durls) →
  Forall (λ durl, wf_durl durl = true) durls →
  first_match [title_re] webpage = Some t →
  ∃ r, outcome (_real_extract url) = inr r
    ∧ length (result_entries r) = length durls
    ∧ Forall (λ e,
        field "title" e = Some (VStr (clean_html t))
        ∧ field "description" e
          = Some (opt_str (_html_search_meta "description" webpage))
        ∧ field "thumbnail" e
          = Some (opt_str (_html_search_meta "thumbnailUrl" webpage))
        ∧ field "timestamp" e
          = Some (match first_match [upload_time_re] webpage with
                  | Some u => unified_timestamp (VStr (clean_html u))
                  | None => VNone
                  end))
        (result_entries r).
Proof.
  intros Hid Hpage Hcid Hjson Hdurl Hwf Ht.
  rewrite (real_extract_fetched url vid webpage cid (VDict vi)) by done.
  destruct (extract_info_full vid webpage vi durls t Hdurl Hwf Ht) as
    (entries & info & -> & Hp & Hlen & Hkeys).
  pose proof (page_info_eq vid webpage vi t Ht) as Hq. cbv zeta in Hq.
  rewrite Hq in Hp. injection Hp as <-.
  eexists. split; [reflexivity |].
  set (info := match Re.search uploader_re webpage with Some _ => _ | None => _ end).
  assert (Hty : info !! "_type" = None)
    by (subst info; by destruct (Re.search uploader_re webpage)).
  assert (Hall : Forall (λ e : gmap string value, e !! "_type" = None) entries).
  { eapply Forall_impl; [exact Hkeys |]. intros e He. by apply He. }
  split.
  { destruct (decide (length entries = 1%nat)) as [Hone | Hmany].
    - destruct entries as [| e [| e' es]]; try done.
      apply Forall_cons in Hall as [He _].
      rewrite fmap_cons, fmap_nil, assemble_single. cbn [result_entries].
      by rewrite (lookup_union_None_2 _ _ _ Hty He), <- Hlen.
    - rewrite assemble_multi by done.
      change (result_entries _)
        with (imap (renumber vid) (entry_update info <$> (VDict <$> entries))).
      by rewrite length_renumbered. }
  assert (Hm : ∀ k v, k ≠ "id" → info !! k = Some v →
    Forall (λ x, field k x = Some v)
      (result_entries (assemble vid (VStr (clean_html t))
         (opt_str (_html_search_meta "description" webpage)) info (VDict <$> entries))))
    by (intros k v Hk Hv; by apply merged_field).
  pose proof (Hm "title" _ ltac:(done)
                ltac:(subst info; by destruct (Re.search uploader_re webpage))) as H1.
  pose proof (Hm "description" _ ltac:(done)
                ltac:(subst info; by destruct (Re.search uploader_re webpage))) as H2.
  pose proof (Hm "thumbnail" _ ltac:(done)
                ltac:(subst info; by destruct (Re.search uploader_re webpage))) as H3.
  pose proof (Hm "timestamp" _ ltac:(done)
                ltac:(subst info; by destruct (Re.search uploader_re webpage))) as H4.
  rewrite Forall_forall in H1, H2, H3, H4. apply Forall_forall. intros e He.
  auto.
Qed.

Lemma metadata_shared_by_all_parts_witness :
  ∃ r, outcome (_real_extract (H := Demo.host Demo.page_timed (inr Demo.two_parts))
                  Demo.url) = inr r
    ∧ field "title" <$> result_entries r
      = [Some (VStr "Hello"); Some (VStr "Hello")]
    ∧ field "timestamp" <$> result_entries r
      = [Some (VInt 1398012660); Some (VInt 1398012660)].
Proof.
  destruct (metadata_shared_by_all_parts
              (H := Demo.host Demo.page_timed (inr Demo.two_parts))
              Demo.url "1074402" Demo.page_timed "12345"
              (<["durl" := VList [Demo.durl_a; Demo.durl_b]]>
               (<["timelength" := VInt 8000]> ∅))
              [Demo.durl_a; Demo.durl_b] "Hello")
    as (r & Hr & Hlen & Hall);
    [ vm_compute; reflexivity | reflexivity | vm_compute; reflexivity
    | vm_compute; reflexivity | reflexivity | by repeat constructor
    | vm_compute; reflexivity | ].
  exists r. split; [exact Hr |].
  destruct (result_entries r) as [| e1 [| e2 [| e3 es]]]; try done.
  apply Forall_cons in Hall as [(Ht1 & _ & _ & Hs1) Hall].
  apply Forall_cons in Hall as [(Ht2 & _ & _ & Hs2) _].
  cbn [fmap list_fmap]. rewrite Ht1, Ht2, Hs1, Hs2. split; reflexivity.
Defined.

(** ** The uploader *)

Lemma binds_uploader_id : Re.binds 1 uploader_re.
Proof. cbn. tauto. Qed.

Lemma binds_uploader_name : Re.binds 2 uploader_re.
Proof. cbn. tauto. Qed.

(** X7. The uploader's name and id go together: when the link to the
    uploader's space is found every entry of the result carries both, as
    strings; when it is not, no entry carries either. *)
Theorem uploader_both_or_neither `{InfoExtractor} url vid webpage cid
  (vi : gmap string value) durls t :
  _match_id url = mret vid →
  _download_webpage url vid = inr webpage →
  embedded_id webpage = mret cid →
  _download_json (playurl (payload_of cid) (sign_of (payload_of cid))) vid
    = inr (VDict vi) →
  vi !! "durl" = Some (VList durls) →
  Forall (λ durl, wf_durl durl = true) durls →
  first_match [title_re] webpage = Some t →
  ∃ r, outcome (_real_extract url) = inr r
    ∧ match Re.search uploader_re webpage with
      | Some m =>
          ∃ name id,
            m !! 2%nat = Some name ∧ m !! 1%nat = Some id
            ∧ Forall (λ e, field "uploader" e = Some (VStr name)
                           ∧ field "uploader_id" e = Some (VStr id))
                (result_entries r)
      | None =>
          Forall (λ e, field "uploader" e = None ∧ field "uploader_id" e = None)
            (result_entries r)
      end.
Proof.
  intros Hid Hpage Hcid Hjson Hdurl Hwf Ht.
  rewrite (real_extract_fetched url vid webpage cid (VDict vi)) by done.
  destruct (extract_info_full vid webpage vi durls t Hdurl Hwf Ht) as
    (entries & info & -> & Hp & Hlen & Hkeys).
  pose proof (page_info_eq vid webpage vi t Ht) as Hq. cbv zeta in Hq.
  rewrite Hq in Hp. injection Hp as <-.
  eexists. split; [reflexivity |].
  assert (Hall : Forall (λ e : gmap string value, e !! "_type" = None) entries).
  { eapply Forall_impl; [exact Hkeys |]. intros e He. by apply He. }
  destruct (Re.search uploader_re webpage) as [m |] eqn:Hs.
  - destruct (ReFacts.search_binds _ _ _ _ binds_uploader_name Hs) as [name Hname].
    destruct (ReFacts.search_binds _ _ _ _ binds_uploader_id Hs) as [id Hi].
    exists name, id. split; [done |]. split; [done |].
    rewrite Hname, Hi. cbn [opt_str].
    match goal with |- Forall _ (result_entries (assemble _ _ _ ?i _)) => set (info := i) end.
    pose proof (merged_field vid (VStr (clean_html t))
                  (opt_str (_html_search_meta "description" webpage))
                  info entries "uploader" (VStr name)
                  ltac:(done) ltac:(done) ltac:(done) Hall) as H1.
    pose proof (merged_field vid (VStr (clean_html t))
                  (opt_str (_html_search_meta "description" webpage))
                  info entries "uploader_id" (VStr id)
                  ltac:(done) ltac:(done) ltac:(done) Hall) as H2.
    rewrite Forall_forall in H1, H2. apply Forall_forall. auto.
  - match goal with |- Forall _ (result_entries (assemble _ _ _ ?i _)) => set (info := i) end.
    assert (Hk : ∀ k, k ≠ "id" → k ≠ "duration" → k ≠ "formats" →
      Forall (λ e : gmap string value, e !! "_type" = None ∧ e !! k = None) entries).
    { intros k ? ? ?. eapply Forall_impl; [exact Hkeys |]. intros e He.
      split; by apply He. }
    pose proof (unmerged_field vid (VStr (clean_html t))
                  (opt_str (_html_search_meta "description" webpage))
                  info entries "uploader"
                  ltac:(done) ltac:(done) ltac:(done)
                  (Hk "uploader" ltac:(done) ltac:(done) ltac:(done)))
      as H1.
    pose proof (unmerged_field vid (VStr (clean_html t))
                  (opt_str (_html_search_meta "description" webpage))
                  info entries "uploader_id"
                  ltac:(done) ltac:(done) ltac:(done)
                  (Hk "uploader_id" ltac:(done) ltac:(done) ltac:(done)))
      as H2.
    rewrite Forall_forall in H1, H2. apply Forall_forall. auto.
Qed.

Lemma uploader_both_or_neither_witness :
  (∃ r, outcome (_real_extract (H := Demo.host Demo.page_uploader (inr Demo.single))
                   Demo.url) = inr r
     ∧ field "uploader" r = Some (VStr "Bob")
     ∧ field "uploader_id" r = Some (VStr "156160"))
  ∧ (∃ r, outcome (_real_extract (H := Demo.host Demo.page (inr Demo.single))
                     Demo.url) = inr r
       ∧ field "uploader" r = None ∧ field "uploader_id" r = None).
Proof.
  split.
  - destruct (uploader_both_or_neither
                (H := Demo.host Demo.page_uploader (inr Demo.single))
                Demo.url "1074402" Demo.page_uploader "12345"
                (<["durl" := VList [Demo.durl_a]]> (<["timelength" := VInt 5000]> ∅))
                [Demo.durl_a] "Hello")
      as (r & Hr & Hu);
      [ vm_compute; reflexivity | reflexivity | vm_compute; reflexivity
      | vm_compute; reflexivity | reflexivity | by repeat constructor
      | vm_compute; reflexivity | ].
    exists r. split; [exact Hr |].
    vm_compute in Hr. injection Hr as <-. split; reflexivity.
  - destruct (uploader_both_or_neither
                (H := Demo.host Demo.page (inr Demo.single))
                Demo.url "1074402" Demo.page "12345"
                (<["durl" := VList [Demo.durl_a]]> (<["timelength" := VInt 5000]> ∅))
                [Demo.durl_a] "Hello")
      as (r & Hr & Hu);
      [ vm_compute; reflexivity | reflexivity | vm_compute; reflexivity
      | vm_compute; reflexivity | reflexivity | by repeat constructor
      | vm_compute; reflexivity | ].
    exists r. split; [exact Hr |].
    vm_compute in Hr. injection Hr as <-. split; reflexivity.
Defined.

(** ** The upload time *)



(** ** Warnings *)














(** ** Strings: cancellation *)

Lemma append_inv_head (p a b : string) : p +:+ a = p +:+ b → a = b.
Proof.
  induction p as [| c p IH]; [done |].
  change (String c (p +:+ a) = String c (p +:+ b) → a = b).
  intros [= Hp]. by apply IH.
Qed.

Lemma list_of_append (a b : string) :
  list_ascii_of_string (a +:+ b) = list_ascii_of_string a ++ list_ascii_of_string b.
Proof.
  induction a as [| c a IH]; [done |].
  change (c :: list_ascii_of_string (a +:+ b)
          = c :: (list_ascii_of_string a ++ list_ascii_of_string b)).
  by rewrite IH.
Qed.

Lemma length_list_of_string (s : string) :
  length (list_ascii_of_string s) = String.length s.
Proof. induction s as [| c s IH]; [done |]. cbn. by rewrite IH. Qed.

Lemma list_of_string_inj (a b : string) :
  list_ascii_of_string a = list_ascii_of_string b → a = b.
Proof.
  intros Hl. rewrite <- (string_of_list_ascii_of_string a),
    <- (string_of_list_ascii_of_string b). by rewrite Hl.
Qed.

Lemma append_inv_tail (a b c d : string) :
  String.length c = String.length d → a +:+ c = b +:+ d → a = b ∧ c = d.
Proof.
  intros Hlen Heq. apply (f_equal list_ascii_of_string) in Heq.
  rewrite !list_of_append in Heq.
  apply app_inj_2 in Heq as [Ha Hc]; [| by rewrite !length_list_of_string].
  split; by apply list_of_string_inj.
Qed.

Lemma str_of_nat_inj n m : str_of_nat n = str_of_nat m → n = m.
Proof.
  unfold str_of_nat. intros Hs.
  apply (f_equal NilEmpty.uint_of_string) in Hs. rewrite !NilEmpty.usu in Hs.
  injection Hs as Hs. by apply DecimalNat.Unsigned.to_uint_inj.
Qed.

Lemma append_nonempty_neq (p s : string) : s ≠ EmptyString → p +:+ s ≠ p.
Proof.
  intros Hs Heq. apply Hs.
  apply (append_inv_head p s EmptyString).
  rewrite Heq. clear. induction p as [| c p IH]; [done |].
  change (String c p = String c (p +:+ EmptyString)). by rewrite <- IH.
Qed.

(** ** The request *)

Lemma payload_of_inj c1 c2 : payload_of c1 = payload_of c2 → c1 = c2.
Proof.
  unfold payload_of. intros Hp.
  do 3 apply append_inv_head in Hp.
  by apply append_inv_tail in Hp as [Hc _].
Qed.

(** X10. Two different embedded ids never share a payload nor a request
    URL: the id sits between fixed texts and the signature has a fixed
    width, so the URL determines the id. *)
Theorem distinct_cids_distinct_requests c1 c2 :
  c1 ≠ c2 →
  payload_of c1 ≠ payload_of c2
  ∧ playurl (payload_of c1) (sign_of (payload_of c1))
    ≠ playurl (payload_of c2) (sign_of (payload_of c2)).
Proof.
  intros Hne. split; [by intros Hp%payload_of_inj |].
  unfold playurl. intros Hu. apply append_inv_head in Hu.
  apply append_inv_tail in Hu as [Hp _]; [by apply payload_of_inj in Hp |].
  change (S (S (S (S (S (S (String.length (sign_of (payload_of c1))))))))
          = S (S (S (S (S (S (String.length (sign_of (payload_of c2))))))))).
  unfold sign_of. by rewrite !hexdigest_length.
Qed.

Lemma distinct_cids_distinct_requests_witness :
  playurl (payload_of "1") (sign_of (payload_of "1"))
  ≠ playurl (payload_of "2") (sign_of (payload_of "2")).
Proof. by apply (distinct_cids_distinct_requests "1" "2"). Defined.

(** ** Entry ids *)

(** X11. The ids of the entries of a result are pairwise distinct, and in a
    multi-part result none of them is the id of the wrapper. *)
Theorem part_ids_distinct `{InfoExtractor} url vid webpage cid
  (vi : gmap string value) durls t :
  _match_id url = mret vid →
  _download_webpage url vid = inr webpage →
  embedded_id webpage = mret cid →
  _download_json (playurl (payload_of cid) (sign_of (payload_of cid))) vid
    = inr (VDict vi) →
  vi !! "durl" = Some (VList durls) →
  Forall (λ durl, wf_durl durl = true) durls →
  first_match [title_re] webpage = Some t →
  ∃ r, outcome (_real_extract url) = inr r
    ∧ NoDup (field "id" <$> result_entries r)
    ∧ (length durls ≠ 1%nat →
       field "id" r = Some (VStr vid)
       ∧ Forall (λ e, field "id" e ≠ Some (VStr vid)) (result_entries r)).
Proof.
  intros Hid Hpage Hcid Hjson Hdurl Hwf Ht.
  rewrite (real_extract_fetched url vid webpage cid (VDict vi)) by done.
  destruct (extract_info_ok vid webpage vi durls t Hdurl Hwf Ht) as
    (entries & info & -> & Hlen & Hall & Hi & Hiid & Hit & Hidur & Hits & Hif & Hity).
  eexists. split; [reflexivity |].
  destruct (decide (length entries = 1%nat)) as [Hone | Hmany].
  - destruct entries as [| e [| e' es]]; try done.
    apply Forall_cons in Hall as [He _].
    rewrite fmap_cons, fmap_nil, assemble_single. cbn [result_entries].
    rewrite (lookup_union_None_2 _ _ _ Hity He). split; [| by rewrite <- Hlen].
    apply NoDup_singleton.
  - rewrite assemble_multi by done.
    change (result_entries _)
      with (imap (renumber vid) (entry_update info <$> (VDict <$> entries))).
    assert (Hlook : ∀ i x,
      imap (renumber vid) (entry_update info <$> (VDict <$> entries)) !! i = Some x →
      field "id" x = Some (VStr (vid +:+ "_part" +:+ str_of_nat (i + 1)))).
    { intros i x Hx.
      assert (is_Some (entries !! i)) as [e He].
      { apply lookup_lt_is_Some. rewrite <- (length_renumbered vid info).
        by apply lookup_lt_Some with x. }
      rewrite (renumbered_lookup vid info entries i e He) in Hx. injection Hx as <-.
      cbn [field]. by rewrite lookup_insert_eq. }
    split.
    + apply NoDup_alt. intros i j x Hx Hy.
      rewrite list_lookup_fmap in Hx, Hy.
      destruct (imap _ _ !! i) as [xi |] eqn:Hxi; [| done].
      destruct (imap _ _ !! j) as [xj |] eqn:Hxj; [| done].
      cbn in Hx, Hy. rewrite (Hlook i xi Hxi) in Hx. rewrite (Hlook j xj Hxj) in Hy.
      rewrite <- Hy in Hx. injection Hx as Hx.
      do 2 apply append_inv_head in Hx. apply str_of_nat_inj in Hx. lia.
    + intros _. split; [reflexivity |].
      apply Forall_lookup. intros i x Hx. rewrite (Hlook i x Hx).
      intros [= Heq]. revert Heq. apply append_nonempty_neq. done.
Qed.

Lemma part_ids_distinct_witness :
  ∃ r, outcome (_real_extract (H := Demo.host Demo.page (inr Demo.two_parts)) Demo.url)
       = inr r
    ∧ NoDup (field "id" <$> result_entries r).
Proof.
  destruct (part_ids_distinct
              (H := Demo.host Demo.page (inr Demo.two_parts))
              Demo.url "1074402" Demo.page "12345"
              (<["durl" := VList [Demo.durl_a; Demo.durl_b]]>
               (<["timelength" := VInt 8000]> ∅))
              [Demo.durl_a; Demo.durl_b] "Hello")
    as (r & Hr & Hnd & _);
    [ vm_compute; reflexivity | reflexivity | vm_compute; reflexivity
    | vm_compute; reflexivity | reflexivity | by repeat constructor
    | vm_compute; reflexivity | ].
  by exists r.
Defined.

(** ** The URL pattern *)

Module ReLaws.
Import Re.

Lemma strip_spec t s rest : strip t s = Some rest ↔ s = t +:+ rest.
Proof.
  revert s. induction t as [| c t IH]; intros s.
  - cbn [strip]. split; [by intros [= ->] | by intros ->].
  - destruct s as [| a s]; [by split |]. cbn [strip].
    change (String c t +:+ rest) with (String c (t +:+ rest)).
    case_bool_decide as Hac.
    + subst a. rewrite IH. split; [by intros -> | by intros [= ->]].
    + split; [done | by intros [= -> _]].
Qed.

(** A literal text matches exactly when the input starts with it. *)
Lemma exec_lit t : ∀ k caps s,
  exec (lit t) k caps s
  = match strip t s with Some rest => k caps rest | None => None end.
Proof.
  induction t as [| c t IH]; intros k caps s; [reflexivity |].
  cbn [lit exec strip cmatch]. destruct s as [| a s]; [done |].
  case_bool_decide; [apply IH | done].
Qed.

Lemma exec_lit_app t k caps rest : exec (lit t) k caps (t +:+ rest) = k caps rest.
Proof.
  rewrite exec_lit. by rewrite (proj2 (strip_spec t (t +:+ rest) rest) eq_refl).
Qed.










End ReLaws.






(** ** Numeric embedded ids *)

Lemma digit_is_plain a :
  is_digit a = true →
  bool_decide (a = "&"%char) = false ∧ bool_decide (a = "+"%char) = false
  ∧ bool_decide (a = "%"%char) = false.
Proof. by destruct a as [[] [] [] [] [] [] [] []]. Qed.

Lemma split_digits c rest :
  all_of is_digit c = true →
  split "&" ("cid=" +:+ c +:+ String "&" rest) = ("cid=" +:+ c) :: split "&" rest
  ∧ split "&" ("cid=" +:+ c) = ["cid=" +:+ c].
Proof.
  intros Hc.
  assert (H1 : split "&" (c +:+ String "&" rest) = c :: split "&" rest
               ∧ split "&" c = [c]).
  { induction c as [| a c IH]; [done |].
    cbn [all_of] in Hc. apply andb_true_iff in Hc as [Ha Hc].
    destruct (digit_is_plain a Ha) as (Hamp & _). destruct (IH Hc) as [IH1 IH2].
    change (String a c +:+ String "&" rest) with (String a (c +:+ String "&" rest)).
    cbn [split]. by rewrite Hamp, IH1, IH2. }
  destruct H1 as [H1 H2].
  change ("cid=" +:+ c +:+ String "&" rest)
    with (String "c" (String "i" (String "d" (String "=" (c +:+ String "&" rest))))).
  change ("cid=" +:+ c) with (String "c" (String "i" (String "d" (String "=" c)))).
  cbn [split]. rewrite !bool_decide_eq_false_2 by done. by rewrite H1, H2.
Qed.

Lemma unquote_digits c : all_of is_digit c = true → unquote (plus_to_space c) = c.
Proof.
  induction c as [| a c IH]; [done |]. cbn [all_of]. intros [Ha Hc]%andb_true_iff.
  destruct (digit_is_plain a Ha) as (_ & Hplus & Hpct).
  cbn [plus_to_space unquote]. by rewrite Hplus, Hpct, IH.
Qed.

Lemma cid_field c :
  c ≠ EmptyString → all_of is_digit c = true →
  ∀ fs, parse_qsl_fields (("cid=" +:+ c) :: fs) = ("cid", c) :: parse_qsl_fields fs.
Proof.
  intros Hne Hc fs.
  change ("cid=" +:+ c) with (String "c" (String "i" (String "d" (String "=" c)))).
  cbn [parse_qsl_fields split1]. rewrite !bool_decide_eq_false_2 by done.
  rewrite bool_decide_eq_true_2 by done.
  rewrite (bool_decide_eq_false_2 (c = EmptyString)) by done.
  by rewrite (unquote_digits c Hc).
Qed.

(** X13. A numeric cid is read verbatim: when the matched fragment starts
    with cid= followed by digits, alone or followed by further parameters,
    the embedded id is exactly these digits, whatever the further
    parameters are (a second cid included). *)
Theorem numeric_cid_verbatim webpage c tail :
  first_match [player_params_embed; player_params_iframe] webpage
    = Some ("cid=" +:+ c +:+ tail) →
  c ≠ EmptyString →
  all_of is_digit c = true →
  tail = EmptyString ∨ (∃ more, tail = String "&" more) →
  embedded_id webpage = mret c.
Proof.
  intros Hm Hne Hc Htail. rewrite (embedded_id_found _ _ Hm).
  unfold cid_of_fragment, parse_qsl.
  destruct (split_digits c EmptyString Hc) as [_ H1].
  destruct Htail as [-> | [more ->]].
  - replace (c +:+ EmptyString) with c.
    2: { clear. induction c as [| a c IH]; [done |].
         change (String a c = String a (c +:+ EmptyString)). by rewrite <- IH. }
    by rewrite H1, (cid_field c Hne Hc).
  - destruct (split_digits c more Hc) as [H2 _].
    by rewrite H2, (cid_field c Hne Hc).
Qed.

Lemma numeric_cid_verbatim_witness :
  embedded_id Demo.page = mret "12345"
  ∧ embedded_id Demo.page_spec = mret "12345".
Proof.
  split.
  - apply (numeric_cid_verbatim Demo.page "12345" "&aid=7");
      [vm_compute; reflexivity | done | reflexivity | right; by eexists].
  - apply (numeric_cid_verbatim Demo.page_spec "12345" EmptyString);
      [vm_compute; reflexivity | done | reflexivity | by left].
Defined.
